(** * YouSound: the speech-analysis core ([utils/analyzeAudio.ts])

    A shallow embedding of [analyzeAudio], [analyzeTranscript],
    [getRepeatedWords] and [generateFeedback], and the properties of the
    design document that concern them.

    Conventions of the embedding.
    - A JavaScript number that arrives in the JSON of the transcription
      service is a rational [Q]; arithmetic on it is exact.  Counts and
      lengths are [nat], the results of [Math.round] are [Z].
    - A field that the code reads defensively ([x ?? 1], [x || 0],
      [typeof x === 'number']) is an [option]: [None] stands for a missing
      field or a value that is not a number.
    - A string is a [string] of code units; [toLowerCase] and [trim] act on
      the ASCII letters and the ASCII white space.
    - A plain object used as a counter table is the list of its own
      properties in creation order; a read goes on to [Object.prototype]
      when the object has no such property of its own, and
      [Object_entries] applies the own-key order of the language.
    - The [try]/[catch] of [analyzeAudio], the network calls and the
      unbounded poll loop live in a small monad with a log of the calls
      made and a fuel bound on the loop.  The progress messages of
      [console.log] are left out. *)

From Stdlib Require Import List String Ascii Bool Arith ZArith NArith.
From Stdlib Require Import QArith Qround Lia Lqa Permutation Sorted.
From Stdlib Require Import DecimalString.
Import ListNotations.

Close Scope Q_scope.
Open Scope string_scope.

(** ** The JavaScript runtime the source relies on *)

Module JS.

(** [Math.round]: the nearest integer, a tie going up. *)
Definition Math_round (x : Q) : Z := Qfloor (x + 0.5)%Q.

Definition Qltb (a b : Q) : bool := negb (Qle_bool b a).

(** [x || d] on a number that may be missing: [0] is falsy as well. *)
Definition or_default (x : option Q) (d : Q) : Q :=
  match x with
  | Some v => if Qeq_bool v 0 then d else v
  | None => d
  end.

(** [x ?? d]: only a missing value is replaced. *)
Definition nullish (x : option Q) (d : Q) : Q :=
  match x with
  | Some v => v
  | None => d
  end.

(** *** Strings *)

Definition lower_char (c : ascii) : ascii :=
  let n := nat_of_ascii c in
  if (65 <=? n)%nat && (n <=? 90)%nat then ascii_of_nat (n + 32) else c.

Fixpoint toLowerCase (s : string) : string :=
  match s with
  | EmptyString => EmptyString
  | String c r => String (lower_char c) (toLowerCase r)
  end.

Definition is_space (c : ascii) : bool :=
  let n := nat_of_ascii c in
  (n =? 32)%nat || ((9 <=? n)%nat && (n <=? 13)%nat).

Fixpoint trimStart (s : string) : string :=
  match s with
  | EmptyString => EmptyString
  | String c r => if is_space c then trimStart r else s
  end.

Fixpoint trimEnd (s : string) : string :=
  match s with
  | EmptyString => EmptyString
  | String c r =>
      match trimEnd r with
      | EmptyString => if is_space c then EmptyString else String c EmptyString
      | r' => String c r'
      end
  end.

Definition trim (s : string) : string := trimEnd (trimStart s).

(** [`${n}`] for a count. *)
Definition showNat (n : nat) : string := NilZero.string_of_uint (Nat.to_uint n).

(** [a.join(sep)] *)
Definition join (sep : string) (l : list string) : string := String.concat sep l.

(** [a.includes(x)] *)
Definition includes (l : list string) (x : string) : bool :=
  existsb (String.eqb x) l.

(** [Array.from(new Set(a))]: the first occurrence of every element, in order. *)
Fixpoint unique_acc (seen l : list string) : list string :=
  match l with
  | [] => []
  | x :: r => if includes seen x then unique_acc seen r
              else x :: unique_acc (seen ++ [x])%list r
  end.

Definition unique (l : list string) : list string := unique_acc [] l.

(** *** [Array.prototype.sort]

    The language fixes the sort as stable and leaves the algorithm open; on
    a comparator that is a consistent order every stable sort returns the
    same array.  The comparator answers a number, [None] standing for
    [NaN]; [x] goes after [y] exactly when the answer is above [0]. *)

Section Sort.
Context {A : Type} (cmp : A -> A -> option Z).

Definition goesAfter (x y : A) : bool :=
  match cmp x y with
  | Some z => (0 <? z)%Z
  | None => false
  end.

Fixpoint insert (x : A) (l : list A) : list A :=
  match l with
  | [] => [x]
  | y :: r => if goesAfter x y then y :: insert x r else x :: l
  end.

Fixpoint sort (l : list A) : list A :=
  match l with
  | [] => []
  | x :: r => insert x (sort r)
  end.
End Sort.

(** [a.slice(0, n)] *)
Definition slice0 {A : Type} (n : nat) (l : list A) : list A := firstn n l.

(** *** Plain objects used as counter tables *)

(** The own properties, in creation order. *)
Definition Obj (V : Type) : Type := list (string * V).

Fixpoint get {V} (o : Obj V) (k : string) : option V :=
  match o with
  | [] => None
  | (k', v) :: r => if String.eqb k k' then Some v else get r k
  end.

(** An existing own property keeps its place, a new one goes last. *)
Fixpoint set {V} (o : Obj V) (k : string) (v : V) : Obj V :=
  match o with
  | [] => [(k, v)]
  | (k', v') :: r => if String.eqb k k' then (k', v) :: r else (k', v') :: set r k v
  end.

(** What [counts[k]] can be in [counts[k] = (counts[k] || 0) + 1]: a
    number, a string, or a value inherited from [Object.prototype]. *)
Variant Value :=
| Num (n : nat)
| Str (s : string)
| Builtin (name : string)    (* a function of [Object.prototype] *)
| Prototype.                 (* [Object.prototype], read as [__proto__] *)

(** The properties every object literal inherits. *)
Definition objectPrototype : Obj Value :=
  [("constructor", Builtin "Object");
   ("__defineGetter__", Builtin "__defineGetter__");
   ("__defineSetter__", Builtin "__defineSetter__");
   ("hasOwnProperty", Builtin "hasOwnProperty");
   ("__lookupGetter__", Builtin "__lookupGetter__");
   ("__lookupSetter__", Builtin "__lookupSetter__");
   ("isPrototypeOf", Builtin "isPrototypeOf");
   ("propertyIsEnumerable", Builtin "propertyIsEnumerable");
   ("toString", Builtin "toString");
   ("valueOf", Builtin "valueOf");
   ("__proto__", Prototype);
   ("toLocaleString", Builtin "toLocaleString")].

(** [o[k]] read on an object literal: the own property, else the
    inherited one, else [undefined]. *)
Definition lookup (o : Obj Value) (k : string) : option Value :=
  match get o k with
  | Some v => Some v
  | None => get objectPrototype k
  end.

(** [o[k] = v] on an object literal, for a [v] that is a number or a
    string: [__proto__] is an inherited accessor, which ignores such a
    value; every other key becomes or stays an own property. *)
Definition assign (o : Obj Value) (k : string) (v : Value) : Obj Value :=
  if String.eqb k "__proto__" then o else set o k v.

(** [x || 0] *)
Definition orZero (x : option Value) : Value :=
  match x with
  | None => Num 0
  | Some (Num 0) => Num 0
  | Some (Str EmptyString) => Num 0
  | Some v => v
  end.

(** The text of a value, as [+] and a template make it.  The text of a
    built-in function is the engine's own; it has this shape, and the word
    [function] at its head, in all of them. *)
Definition toText (v : Value) : string :=
  match v with
  | Num n => showNat n
  | Str s => s
  | Builtin name => "function " ++ name ++ "() { [native code] }"
  | Prototype => "[object Object]"
  end.

(** [x + 1]: addition on a number, concatenation on everything else. *)
Definition plusOne (v : Value) : Value :=
  match v with
  | Num n => Num (n + 1)
  | _ => Str (toText v ++ "1")
  end.

Definition is_digit (c : ascii) : bool :=
  let n := nat_of_ascii c in (48 <=? n)%nat && (n <=? 57)%nat.

Fixpoint digits_value (s : string) (acc : N) : option N :=
  match s with
  | EmptyString => Some acc
  | String c r =>
      if is_digit c then digits_value r (acc * 10 + (N_of_ascii c - 48))%N
      else None
  end.

(** A key is an array index when it is the canonical decimal form of an
    integer below [2^32 - 1]. *)
Definition array_index (k : string) : option N :=
  match k with
  | EmptyString => None
  | String c r =>
      if Ascii.eqb c "0"%char && negb (String.eqb r EmptyString) then None
      else match digits_value k 0 with
           | Some n => if (n <? 4294967295)%N then Some n else None
           | None => None
           end
  end.

Definition is_index (k : string) : bool :=
  match array_index k with Some _ => true | None => false end.

Definition index_rank {V} (e : string * V) : Z :=
  match array_index (fst e) with Some n => Z.of_N n | None => 0%Z end.

(** The number a value is read as in [v > 1] and [v - w]; [None] is [NaN].
    Of the strings only those made of digits are numerals here; the
    strings of a counter table begin with the text of an inherited value
    and are no numerals of any kind. *)
Definition toNumber (v : Value) : option Z :=
  match v with
  | Num n => Some (Z.of_nat n)
  | Str s => match digits_value s 0 with
             | Some n => Some (Z.of_N n)
             | None => None
             end
  | Builtin _ => None
  | Prototype => None
  end.

(** [v > n] *)
Definition above (v : Value) (n : nat) : bool :=
  match toNumber v with
  | Some z => (Z.of_nat n <? z)%Z
  | None => false
  end.

(** [Object.entries(o)]: the array-index keys first, by ascending value,
    then the other keys in creation order. *)
Definition Object_entries {V} (o : Obj V) : list (string * V) :=
  (sort (fun a b => Some (index_rank a - index_rank b)%Z)
       (filter (fun e => is_index (fst e)) o)
  ++ filter (fun e => negb (is_index (fst e))) o)%list.

End JS.

(** ** Data model *)

Record Word := {
  text : string;
  start : option Q;        (* seconds *)
  end_ : option Q;         (* seconds *)
  confidence : option Q;
  type : option string     (* "disfluency" indicates filler *)
}.

(** A value the core passes through without reading it. *)
Variant Json := Raw (source : string).

Record WordCount := { word : string; count : JS.Value }.

Record Pause := { pause_start : Q; pause_end : Q; duration : Q }.

Record Issue := { issue_word : string; issue_confidence : option Q }.

(** The body of a poll response; a completed one is the transcript. *)
Record Transcript := {
  status : string;
  error : string;
  transcript_text : string;
  words : option (list Word);
  audio_duration : option Q;
  utterances : option (list Json);
  auto_highlights_result : option (list Json)
}.

(** The argument of [generateFeedback]. *)
Module Metrics.
Record t := {
  totalFillers : nat;
  fillerRate : Q;
  longPauses : list Pause;
  speakingPace : Q;
  avgConfidence : Q;
  totalDurationMinutes : Q;
  mostUsedFillers : list WordCount;
  commonFillerCounts : option (JS.Obj nat);
  pronunciationIssues : option (list Issue)
}.
End Metrics.

(** What [analyzeTranscript] returns. *)
Record Analysis := {
  totalFillers : nat;
  fillerRate : Q;                   (* fillers per minute *)
  mostUsedFillers : list WordCount;
  commonFillerCounts : JS.Obj nat;
  longPauses : list Pause;
  speakingPace : Z;                 (* words per minute *)
  confidenceScore : Z;
  pronunciationIssues : list Issue;
  feedback : list string;
  recommendations : list string;
  fillers : list Word
}.

Record AnalysisResult := {
  result_text : string;
  result_words : list Word;
  result_fillers : list Word;
  result_utterances : list Json;
  highlights : list Json;
  repeatedWords : list WordCount;
  analysis : Analysis
}.

(** ** The analyzer *)

(** [a || []] *)
Definition orEmpty {A} (l : option (list A)) : list A :=
  match l with Some x => x | None => [] end.

Definition COMMON_FILLERS : list string :=
  ["like"; "because"; "so"; "um"; "uh"; "you know"].

Definition isDisfluency (w : Word) : bool :=
  match type w with
  | Some s => String.eqb s "disfluency"
  | None => false
  end.

Definition toWordCount (e : string * JS.Value) : WordCount :=
  {| word := fst e; count := snd e |}.

(** The comparator [(a, b) => b.count - a.count]. *)
Definition byCountDesc (a b : WordCount) : option Z :=
  match JS.toNumber (count b), JS.toNumber (count a) with
  | Some y, Some x => Some (y - x)%Z
  | _, _ => None
  end.

(** [counts[k] = (counts[k] || 0) + 1] *)
Definition bump (o : JS.Obj JS.Value) (k : string) : JS.Obj JS.Value :=
  JS.assign o k (JS.plusOne (JS.orZero (JS.lookup o k))).

Definition getRepeatedWords (ws : list Word) : list WordCount :=
  let counts :=
    fold_left
      (fun counts w =>
         if negb (isDisfluency w) then
           let wtext := JS.toLowerCase (text w) in
           if (1 <? String.length wtext)%nat then bump counts wtext else counts
         else counts)
      ws [] in
  JS.sort byCountDesc
    (map toWordCount
       (filter (fun e => JS.above (snd e) 1) (JS.Object_entries counts))).

(** One turn of the pause loop, at index [i]. *)
Definition pauseStep (ws : list Word) (acc : list Pause) (i : nat) : list Pause :=
  match nth_error ws (i - 1), nth_error ws i with
  | Some prevWord, Some currentWord =>
      match end_ prevWord, start currentWord with
      | Some e, Some s =>
          let pauseDuration := (s - e)%Q in
          if JS.Qltb 2.5 pauseDuration
          then (acc ++ [{| pause_start := e; pause_end := s;
                           duration := pauseDuration |}])%list
          else acc
      | _, _ => acc
      end
  | _, _ => acc
  end.

(** [for (let i = 1; i < words.length; i++)] *)
Definition detectLongPauses (ws : list Word) : list Pause :=
  fold_left (pauseStep ws) (seq 1 (List.length ws - 1)) [].

Definition countFillers (fs : list Word) : JS.Obj JS.Value :=
  fold_left (fun fillerCounts filler =>
               bump fillerCounts (JS.trim (JS.toLowerCase (text filler))))
            fs [].

(** [o[k]++] on a key that [o] has as a number of its own, as every key
    of [COMMON_FILLERS] is once the table is initialised. *)
Definition increment (o : JS.Obj nat) (k : string) : JS.Obj nat :=
  match JS.get o k with
  | Some n => JS.set o k (n + 1)
  | None => o
  end.

Definition countCommonFillers (ws : list Word) : JS.Obj nat :=
  let init := fold_left (fun o filler => JS.set o filler 0) COMMON_FILLERS [] in
  fold_left
    (fun o w =>
       let t := JS.toLowerCase (text w) in
       if JS.includes COMMON_FILLERS t then increment o t else o)
    ws init.

Definition sumConfidence (ws : list Word) : Q :=
  fold_left (fun sum w => (sum + JS.or_default (confidence w) 0)%Q) ws 0%Q.

(** [transcript.audio_duration || 1] and its value in minutes. *)
Definition totalDurationSeconds (transcript : Transcript) : Q :=
  JS.or_default (audio_duration transcript) 1.

Definition totalDurationMinutes (transcript : Transcript) : Q :=
  (totalDurationSeconds transcript / 60)%Q.

(** ** The feedback generator *)

(** One [push] onto one of the two arrays of [generateFeedback]. *)
Variant Push := Feedback (s : string) | Recommendation (s : string).

Definition feedbackOf (l : list Push) : list string :=
  flat_map (fun p => match p with Feedback s => [s] | Recommendation _ => [] end) l.

Definition recommendationsOf (l : list Push) : list string :=
  flat_map (fun p => match p with Recommendation s => [s] | Feedback _ => [] end) l.

Definition dq : string := String "034"%char EmptyString.

Definition ofNat (n : nat) : Q := inject_Z (Z.of_nat n).

Section Feedback.

(** [`${x}`] on a number that is not a count: the rendering of the
    language, which no part of the source defines. *)
Variable numberToString : Q -> string.

Definition fillerRateRule (metrics : Metrics.t) : list Push :=
  if JS.Qltb (Metrics.fillerRate metrics) 2 then
    [Feedback "🎯 Excellent! Very few filler words detected."]
  else if JS.Qltb (Metrics.fillerRate metrics) 5 then
    [Feedback "👍 Good control of filler words, but there's room for improvement.";
     Recommendation "Practice pausing instead of using filler words when you need time to think."]
  else
    [Feedback ("⚠️ High filler word usage detected ("
               ++ numberToString (Metrics.fillerRate metrics)
               ++ "/min). This may distract your audience.");
     Recommendation "Record yourself regularly and become aware of your filler word patterns.";
     Recommendation "Practice speaking more slowly and deliberately."].

Definition topFillerRule (metrics : Metrics.t) : list Push :=
  match Metrics.mostUsedFillers metrics with
  | topFiller :: _ =>
      [Feedback ("🔍 Your most used filler word is " ++ dq ++ word topFiller ++ dq
                 ++ " (" ++ JS.toText (count topFiller) ++ " times).");
       Recommendation ("Be especially mindful of saying " ++ dq ++ word topFiller ++ dq
                       ++ " - try replacing it with a brief pause.")]
  | [] => []
  end.

Definition commonFillersRule (metrics : Metrics.t) : list Push :=
  match Metrics.commonFillerCounts metrics with
  | Some commonFillerCounts =>
      let usedFillers :=
        filter (fun e => (0 <? snd e)%nat) (JS.Object_entries commonFillerCounts) in
      if (0 <? List.length usedFillers)%nat then
        let fillersList :=
          JS.join ", "
            (map (fun e => dq ++ fst e ++ dq ++ " (" ++ JS.showNat (snd e) ++ " times)")
                 usedFillers) in
        [Feedback ("🗣️ You used common filler words: " ++ fillersList
                   ++ ". Try to reduce them for clearer speech.");
         Recommendation "Practice pausing instead of using common filler words."]
      else []
  | None => []
  end.

Definition paceRule (metrics : Metrics.t) : list Push :=
  if JS.Qltb (Metrics.speakingPace metrics) 120 then
    [Feedback "🐌 Your speaking pace is quite slow. Consider speaking a bit faster to maintain engagement.";
     Recommendation "Practice speaking at 150-160 words per minute for optimal clarity and engagement."]
  else if JS.Qltb 200 (Metrics.speakingPace metrics) then
    [Feedback "🏃 You're speaking quite fast. Slow down to ensure clarity and comprehension.";
     Recommendation "Take deliberate pauses between sentences to give your audience time to process."]
  else
    [Feedback "✅ Your speaking pace is in a good range for clear communication."].

Definition pauseRule (metrics : Metrics.t) : list Push :=
  let n := List.length (Metrics.longPauses metrics) in
  if (0 <? n)%nat then
    Feedback ("⏸️ " ++ JS.showNat n
              ++ " long pause(s) detected. Some pauses can be effective, but too many may indicate hesitation.")
    :: (if JS.Qltb (Metrics.totalDurationMinutes metrics * 2)%Q (ofNat n) then
          [Recommendation "Prepare your content more thoroughly to reduce hesitation pauses.";
           Recommendation "Practice your presentation multiple times to improve flow."]
        else [])
  else
    [Feedback "⏭️ Good flow with appropriate pausing."].

Definition confidenceRule (metrics : Metrics.t) : list Push :=
  if JS.Qltb 0.8 (Metrics.avgConfidence metrics) then
    [Feedback "🎤 Clear articulation detected - your speech is easy to understand."]
  else if JS.Qltb 0.6 (Metrics.avgConfidence metrics) then
    [Feedback "👌 Generally clear speech with some areas for improvement.";
     Recommendation "Speak more clearly and ensure proper pronunciation of key words."]
  else
    [Feedback "🗣️ Consider speaking more clearly - some words may be difficult to understand.";
     Recommendation "Practice articulation exercises and speak more slowly."].

Definition pronunciationRule (metrics : Metrics.t) : list Push :=
  match Metrics.pronunciationIssues metrics with
  | Some issues =>
      if (0 <? List.length issues)%nat then
        let uniqueIssues :=
          JS.unique (map (fun i => JS.toLowerCase (issue_word i)) issues) in
        [Feedback ("❗ Potential pronunciation issues detected on words: "
                   ++ JS.join ", " uniqueIssues ++ ".");
         Recommendation "Work on clear articulation and pronunciation, especially these words.";
         Recommendation "Record yourself and compare to native speakers."]
      else []
  | None => []
  end.

Definition closingRule : list Push :=
  [Recommendation "Record yourself regularly to track improvement over time.";
   Recommendation "Practice in front of a mirror or with friends for feedback."].

(** Everything [generateFeedback] pushes after the filler-rate rule. *)
Definition laterRules (metrics : Metrics.t) : list Push :=
  (topFillerRule metrics ++ commonFillersRule metrics ++ paceRule metrics
   ++ pauseRule metrics ++ confidenceRule metrics ++ pronunciationRule metrics
   ++ closingRule)%list.

Definition generateFeedback (metrics : Metrics.t) : list string * list string :=
  let pushes := (fillerRateRule metrics ++ laterRules metrics)%list in
  (feedbackOf pushes, recommendationsOf pushes).

Definition analyzeTranscript (transcript : Transcript) : Analysis :=
  let words := orEmpty (words transcript) in
  let totalDurationMinutes := totalDurationMinutes transcript in
  let fillers := filter isDisfluency words in
  let fillerCounts := countFillers fillers in
  let mostUsedFillers :=
    JS.slice0 10
      (JS.sort byCountDesc (map toWordCount (JS.Object_entries fillerCounts))) in
  let commonFillerCounts := countCommonFillers words in
  let pronunciationIssues :=
    map (fun w => {| issue_word := text w; issue_confidence := confidence w |})
        (filter (fun w => JS.Qltb (JS.nullish (confidence w) 1) 0.6
                          && negb (isDisfluency w)) words) in
  let longPauses := detectLongPauses words in
  let totalWords := List.length (filter (fun w => negb (isDisfluency w)) words) in
  let speakingPace := (ofNat totalWords / totalDurationMinutes)%Q in
  let nonFillerWords := filter (fun w => negb (isDisfluency w)) words in
  let avgConfidence :=
    if (0 <? List.length nonFillerWords)%nat
    then (sumConfidence nonFillerWords / ofNat (List.length nonFillerWords))%Q
    else 0%Q in
  let fillerRate := (ofNat (List.length fillers) / totalDurationMinutes)%Q in
  let feedbackData :=
    generateFeedback
      {| Metrics.totalFillers := List.length fillers;
         Metrics.fillerRate := fillerRate;
         Metrics.longPauses := longPauses;
         Metrics.speakingPace := speakingPace;
         Metrics.avgConfidence := avgConfidence;
         Metrics.totalDurationMinutes := totalDurationMinutes;
         Metrics.mostUsedFillers := mostUsedFillers;
         Metrics.commonFillerCounts := Some commonFillerCounts;
         Metrics.pronunciationIssues := Some pronunciationIssues |} in
  {| totalFillers := List.length fillers;
     fillerRate := (inject_Z (JS.Math_round (fillerRate * 10)) / 10)%Q;
     mostUsedFillers := mostUsedFillers;
     commonFillerCounts := commonFillerCounts;
     longPauses := longPauses;
     speakingPace := JS.Math_round speakingPace;
     confidenceScore := JS.Math_round (avgConfidence * 100);
     pronunciationIssues := pronunciationIssues;
     feedback := fst feedbackData;
     recommendations := snd feedbackData;
     fillers := fillers |}.

End Feedback.

(** ** The remote job and the entry point *)

(** A thrown value: [new Error(message)], or what a failed network call or
    [JSON.parse] throws. *)
Variant Exn := JsError (message : string).

(** The calls [analyzeAudio] makes, in the order it makes them. *)
Variant Event :=
| Upload (uri : string)
| Submit (audio_url : option string)
| Poll (id : option string)
| Sleep (ms : nat)
| ConsoleError (e : Exn).

(** The transcription service as [analyzeAudio] sees it.  Each call either
    throws or answers; [upload] answers the [upload_url] of the parsed
    body, [submit] the [id] of the job (either may be missing), and [fetch]
    the body of the poll with the given number, counted from [0]. *)
Record Service := {
  upload : string -> Exn + option string;
  submit : option string -> Exn + option string;
  fetch : option string -> nat -> Exn + Transcript
}.

(** How a computation ends: with a value, with a thrown exception, or still
    polling when the fuel ran out. *)
Variant Res (A : Type) := Ret (a : A) | Throw (e : Exn) | Polling.
Arguments Ret {A} a.
Arguments Throw {A} e.
Arguments Polling {A}.

Definition Eff (A : Type) : Type := list Event -> Res A * list Event.

Definition ret {A} (a : A) : Eff A := fun log => (Ret a, log).

Definition throw {A} (e : Exn) : Eff A := fun log => (Throw e, log).

Definition bind {A B} (m : Eff A) (k : A -> Eff B) : Eff B :=
  fun log =>
    match m log with
    | (Ret a, log') => k a log'
    | (Throw e, log') => (Throw e, log')
    | (Polling, log') => (Polling, log')
    end.

Notation "x <- m ;; k" := (bind m (fun x => k))
  (at level 61, m at next level, right associativity).
Notation "m ;;; k" := (bind m (fun _ => k))
  (at level 61, right associativity).

(** An awaited call: it is logged, then it answers or throws. *)
Definition await {A} (ev : Event) (answer : Exn + A) : Eff A :=
  fun log =>
    match answer with
    | inl e => (Throw e, log ++ [ev])
    | inr a => (Ret a, log ++ [ev])
    end%list.

Definition emit (ev : Event) : Eff unit := fun log => (Ret tt, (log ++ [ev])%list).

(** [try { body } catch (error) { handler }] *)
Definition tryCatch {A} (body : Eff A) (handler : Exn -> Eff A) : Eff A :=
  fun log =>
    match body log with
    | (Throw e, log') => handler e log'
    | r => r
    end.

Definition terminal (s : string) : bool :=
  String.eqb s "completed" || String.eqb s "error".

(** [while (true)] of step 3, started at poll number [n]; one unit of fuel
    per turn. *)
Fixpoint pollLoop (fuel : nat) (srv : Service) (transcriptId : option string)
    (n : nat) : Eff Transcript :=
  match fuel with
  | O => fun log => (Polling, log)
  | S fuel' =>
      data <- await (Poll transcriptId) (fetch srv transcriptId n) ;;
      if String.eqb (status data) "completed" then ret data
      else if String.eqb (status data) "error" then throw (JsError (error data))
      else emit (Sleep 2000) ;;; pollLoop fuel' srv transcriptId (S n)
  end.

Section Pipeline.

Variable numberToString : Q -> string.

(** Steps 4 to 7: the object returned for a completed transcript. *)
Definition buildResult (transcript : Transcript) : AnalysisResult :=
  let analysis := analyzeTranscript numberToString transcript in
  let highlights := orEmpty (auto_highlights_result transcript) in
  let repeatedWords := getRepeatedWords (orEmpty (words transcript)) in
  {| result_text := transcript_text transcript;
     result_words := orEmpty (words transcript);
     result_fillers := fillers analysis;
     result_utterances := orEmpty (utterances transcript);
     highlights := highlights;
     repeatedWords := repeatedWords;
     analysis := analysis |}.

(** The body of the [try] block. *)
Definition analyzeAudioBody (fuel : nat) (srv : Service) (uri : string)
    : Eff (option AnalysisResult) :=
  audioUrl <- await (Upload uri) (upload srv uri) ;;
  transcriptId <- await (Submit audioUrl) (submit srv audioUrl) ;;
  transcript <- pollLoop fuel srv transcriptId 0 ;;
  ret (Some (buildResult transcript)).

(** [null] is [None]. *)
Definition analyzeAudio (fuel : nat) (srv : Service) (uri : string)
    : Eff (option AnalysisResult) :=
  tryCatch (analyzeAudioBody fuel srv uri)
           (fun error => emit (ConsoleError error) ;;; ret None).

End Pipeline.

(** ** Vocabulary of the properties *)

(** The frequency table of a list of keys: every distinct key with its
    number of occurrences, in the order the keys are first seen. *)
Definition frequencyTable (ks : list string) : JS.Obj nat :=
  map (fun k => (k, count_occ string_dec ks k)) (JS.unique ks).

Definition isSpoken (w : Word) : bool := negb (isDisfluency w).

(** The lower-cased texts of the spoken words, in transcript order. *)
Definition spokenTexts (ws : list Word) : list string :=
  map (fun w => JS.toLowerCase (text w)) (filter isSpoken ws).

Definition timesSpoken (ws : list Word) (w : string) : nat :=
  count_occ string_dec (spokenTexts ws) w.

(** The lower-cased, trimmed texts of the disfluency-tagged words. *)
Definition fillerTexts (ws : list Word) : list string :=
  map (fun w => JS.trim (JS.toLowerCase (text w))) (filter isDisfluency ws).

(** An entry of a frequency table as an element of a result table. *)
Definition numbered (e : string * nat) : WordCount :=
  {| word := fst e; count := JS.Num (snd e) |}.

Definition countOf (e : WordCount) : nat :=
  match count e with JS.Num n => n | _ => 0 end.

Definition isNumbered (e : WordCount) : Prop := exists n, count e = JS.Num n.

Definition hasCount (c : nat) (e : WordCount) : bool :=
  match count e with JS.Num n => (n =? c)%nat | _ => false end.

Definition descending (l : list WordCount) : Prop :=
  StronglySorted (fun a b => countOf b <= countOf a) l.

Definition countRank (e : WordCount) : Z := (- Z.of_nat (countOf e))%Z.

(** The keys that an object literal inherits a property for. *)
Definition inherited (k : string) : bool :=
  match JS.get JS.objectPrototype k with Some _ => true | None => false end.

(** A table whose values are all numbers. *)
Definition numeric (o : JS.Obj JS.Value) : Prop :=
  forall k v, JS.get o k = Some v -> exists n, v = JS.Num n.

Definition countAt (o : JS.Obj JS.Value) (k : string) : nat :=
  match JS.get o k with Some (JS.Num n) => n | _ => 0 end.

Definition numEntry (e : string * nat) : string * JS.Value :=
  (fst e, JS.Num (snd e)).

(** The words [getRepeatedWords] counts. *)
Definition repeatable (w : Word) : bool :=
  isSpoken w && (1 <? String.length (JS.toLowerCase (text w)))%nat.



(** The confidence of a word, an absent one counting for nothing. *)
Definition confidenceValue (w : Word) : Q :=
  match confidence w with Some c => c | None => 0%Q end.

Definition sumQ (l : list Q) : Q := fold_right Qplus 0%Q l.


(** The invariant [durationSeconds > 0] of the data model, relaxed to a
    duration that is missing or not negative. *)
Definition durationNotNegative (t : Transcript) : Prop :=
  match audio_duration t with
  | Some d => (0 <= d)%Q
  | None => True
  end.

Definition setWords (t : Transcript) (ws : list Word) : Transcript :=
  {| status := status t;
     error := error t;
     transcript_text := transcript_text t;
     words := Some ws;
     audio_duration := audio_duration t;
     utterances := utterances t;
     auto_highlights_result := auto_highlights_result t |}.

Definition flagged (w : Word) : bool :=
  JS.Qltb (JS.nullish (confidence w) 1) 0.6 && negb (isDisfluency w).

(** The three first messages of [generateFeedback] and the recommendations
    that come with them. *)
Definition fillerPraise : string :=
  "🎯 Excellent! Very few filler words detected.".

Definition fillerCaution : string :=
  "👍 Good control of filler words, but there's room for improvement.".

Definition fillerWarning (rate : string) : string :=
  "⚠️ High filler word usage detected (" ++ rate
  ++ "/min). This may distract your audience.".

Definition pausingAdvice : string :=
  "Practice pausing instead of using filler words when you need time to think.".

Definition recordingAdvice : string :=
  "Record yourself regularly and become aware of your filler word patterns.".

Definition slowingAdvice : string :=
  "Practice speaking more slowly and deliberately.".



(** [n] polls each followed by the delay, then one last poll. *)
Definition pollTrace (id : option string) (n : nat) : list Event :=
  (List.concat (repeat [Poll id; Sleep 2000] n) ++ [Poll id])%list.

(** The polls numbered [k] to [k + n - 1] answer with a status that is
    neither [completed] nor [error]. *)
Definition stillRunning (srv : Service) (id : option string) (k n : nat) : Prop :=
  forall i, i < n -> exists d, fetch srv id (k + i) = inr d /\ terminal (status d) = false.

(** ** More vocabulary *)

(** The lower-cased text of the word is one of [COMMON_FILLERS]. *)
Definition inVocabulary (w : Word) : bool :=
  JS.includes COMMON_FILLERS (JS.toLowerCase (text w)).

(** How many of the words, tagged or not, have the lower-cased text [k]. *)
Definition timesSaid (ws : list Word) (k : string) : nat :=
  count_occ string_dec (map (fun w => JS.toLowerCase (text w)) ws) k.

(** The rates before they are rounded, as [generateFeedback] receives them. *)
Definition rawFillerRate (t : Transcript) : Q :=
  (ofNat (List.length (filter isDisfluency (orEmpty (words t))))
   / totalDurationMinutes t)%Q.

Definition rawSpeakingPace (t : Transcript) : Q :=
  (ofNat (List.length (filter isSpoken (orEmpty (words t))))
   / totalDurationMinutes t)%Q.

Definition sumCounts (l : list WordCount) : nat := list_sum (map countOf l).

(** A table with the value [f k] at every key [k] of [ks]. *)
Definition tabulate (f : string -> nat) (ks : list string) : JS.Obj nat :=
  map (fun k => (k, f k)) ks.



(** The messages of the later rules of [generateFeedback]. *)
Definition paceSlow : string :=
  "🐌 Your speaking pace is quite slow. Consider speaking a bit faster to maintain engagement.".

Definition paceFast : string :=
  "🏃 You're speaking quite fast. Slow down to ensure clarity and comprehension.".

Definition paceGood : string :=
  "✅ Your speaking pace is in a good range for clear communication.".

Definition paceSlowAdvice : string :=
  "Practice speaking at 150-160 words per minute for optimal clarity and engagement.".

Definition paceFastAdvice : string :=
  "Take deliberate pauses between sentences to give your audience time to process.".

Definition pauseNote (n : nat) : string :=
  "⏸️ " ++ JS.showNat n
  ++ " long pause(s) detected. Some pauses can be effective, but too many may indicate hesitation.".

Definition pauseNone : string := "⏭️ Good flow with appropriate pausing.".

Definition prepareAdvice : string :=
  "Prepare your content more thoroughly to reduce hesitation pauses.".

Definition rehearseAdvice : string :=
  "Practice your presentation multiple times to improve flow.".

Definition articulationClear : string :=
  "🎤 Clear articulation detected - your speech is easy to understand.".

Definition articulationFair : string :=
  "👌 Generally clear speech with some areas for improvement.".

Definition articulationPoor : string :=
  "🗣️ Consider speaking more clearly - some words may be difficult to understand.".

Definition trackAdvice : string :=
  "Record yourself regularly to track improvement over time.".

Definition mirrorAdvice : string :=
  "Practice in front of a mirror or with friends for feedback.".

(** The metrics that [analyzeTranscript] hands to [generateFeedback]. *)
Definition metricsOf (t : Transcript) : Metrics.t :=
  let ws := orEmpty (words t) in
  let spoken := filter (fun w => negb (isDisfluency w)) ws in
  {| Metrics.totalFillers := List.length (filter isDisfluency ws);
     Metrics.fillerRate := rawFillerRate t;
     Metrics.longPauses := detectLongPauses ws;
     Metrics.speakingPace := rawSpeakingPace t;
     Metrics.avgConfidence :=
       if (0 <? List.length spoken)%nat
       then (sumConfidence spoken / ofNat (List.length spoken))%Q
       else 0%Q;
     Metrics.totalDurationMinutes := totalDurationMinutes t;
     Metrics.mostUsedFillers :=
       JS.slice0 10
         (JS.sort byCountDesc
            (map toWordCount
               (JS.Object_entries (countFillers (filter isDisfluency ws)))));
     Metrics.commonFillerCounts := Some (countCommonFillers ws);
     Metrics.pronunciationIssues :=
       Some (map (fun w => {| issue_word := text w;
                              issue_confidence := confidence w |})
                 (filter flagged ws)) |}.

Definition speakClearlyAdvice : string :=
  "Speak more clearly and ensure proper pronunciation of key words.".

Definition exercisesAdvice : string :=
  "Practice articulation exercises and speak more slowly.".


Definition commonAdvice : string :=
  "Practice pausing instead of using common filler words.".

Definition articulationAdvice : string :=
  "Work on clear articulation and pronunciation, especially these words.".

Definition compareAdvice : string :=
  "Record yourself and compare to native speakers.".

(** ** The screens that call the analyzer *)

(** A number that a division can leave infinite or undefined. *)
Variant Number := Finite (q : Q) | PlusInfinity | MinusInfinity | NotANumber.

(** [a / b], the divisor being [+0] when it is zero. *)
Definition divide (a b : Q) : Number :=
  if Qeq_bool b 0 then
    if Qeq_bool a 0 then NotANumber
    else if JS.Qltb 0 a then PlusInfinity else MinusInfinity
  else Finite (a / b)%Q.

(** [Math.round] on such a number. *)
Definition roundNumber (x : Number) : Number :=
  match x with
  | Finite q => Finite (inject_Z (JS.Math_round q))
  | other => other
  end.

(** [getScoreColor], the same in both screens. *)
Definition getScoreColor (score : Q) : string :=
  if Qle_bool 80 score then "#4CAF50"
  else if Qle_bool 60 score then "#FF9800"
  else "#F44336".


(** The colour of the bar of a pronunciation issue:
    [getScoreColor(issue.confidence * 100)]. *)
Definition issueBarColor (confidence : Q) : string :=
  getScoreColor (confidence * 100)%Q.

Module Recording.
Record t := {
  uri : string;
  duration : Q;                       (* milliseconds *)
  createdAt : string;
  analysis : option AnalysisResult
}.
End Recording.

(** What [getAnalysisData] returns. *)
Module Report.
Record t := {
  totalFillers : nat;
  fillerRate : Number;
  mostUsedFillers : list WordCount;
  longPauses : list Pause;
  speakingPace : Z;
  confidenceScore : Z;
  feedback : list string;
  recommendations : list string
}.
End Report.

Definition defaultAnalysis : Report.t :=
  {| Report.totalFillers := 0;
     Report.fillerRate := Finite 0;
     Report.mostUsedFillers := [];
     Report.longPauses := [];
     Report.speakingPace := 0;
     Report.confidenceScore := 0;
     Report.feedback := ["Analysis data not available"];
     Report.recommendations := ["Please try recording again for detailed analysis"] |}.

(** [getAnalysisData] on a recording whose analysis, when it has one, is a
    result of [analyzeAudio]: the inner [analysis] and its arrays are then
    present, and [x || 0] on a count or a rounded number is [x]. *)
Definition getAnalysisData (recording : Recording.t) : Report.t :=
  match Recording.analysis recording with
  | None => defaultAnalysis
  | Some result =>
      let analysis := analysis result in
      let commonFillers := commonFillerCounts analysis in
      let totalFromCommon :=
        fold_left (fun sum count => sum + count)
                  (map snd (JS.Object_entries commonFillers)) 0 in
      let mostUsedFillers :=
        JS.sort byCountDesc
          (map numbered
             (filter (fun e => (0 <? snd e)%nat) (JS.Object_entries commonFillers))) in
      {| Report.totalFillers := totalFromCommon;
         Report.fillerRate :=
           if Qeq_bool (fillerRate analysis) 0
           then roundNumber
                  (divide (ofNat totalFromCommon)
                          (Recording.duration recording / 60000)%Q)
           else Finite (fillerRate analysis);
         Report.mostUsedFillers := mostUsedFillers;
         Report.longPauses := longPauses analysis;
         Report.speakingPace := speakingPace analysis;
         Report.confidenceScore := confidenceScore analysis;
         Report.feedback := feedback analysis;
         Report.recommendations := recommendations analysis |}
  end.

(** [a.filter((_, i) => keep(i))], counted from [i]. *)
Fixpoint filterIndex {A} (keep : nat -> bool) (i : nat) (l : list A) : list A :=
  match l with
  | [] => []
  | x :: r => if keep i then x :: filterIndex keep (S i) r
              else filterIndex keep (S i) r
  end.

(** The update of [handleDelete]: [prev.filter((_, i) => i !== index)]. *)
Definition handleDelete {A} (index : nat) (prev : list A) : list A :=
  filterIndex (fun i => negb (i =? index)%nat) 0 prev.

(** The first update of [stopRecording]: [[...prev, newRecording]]. *)
Definition addRecording (prev : list Recording.t) (newRecording : Recording.t)
    : list Recording.t :=
  (prev ++ [newRecording])%list.

(** [{ ...newRecording, analysis }] *)
Definition withAnalysis (newRecording : Recording.t) (result : AnalysisResult)
    : Recording.t :=
  {| Recording.uri := Recording.uri newRecording;
     Recording.duration := Recording.duration newRecording;
     Recording.createdAt := Recording.createdAt newRecording;
     Recording.analysis := Some result |}.

(** The second update of [stopRecording], made when [analyzeAudio] did not
    return [null]: [[...prev.slice(0, -1), { ...newRecording, analysis }]]. *)
Definition attachAnalysis (prev : list Recording.t) (newRecording : Recording.t)
    (result : option AnalysisResult) : list Recording.t :=
  match result with
  | Some analysis => (removelast prev ++ [withAnalysis newRecording analysis])%list
  | None => prev
  end.

(** *** The interview screen *)

Module Content.
Record t := {
  relevanceScore : Q;
  structureScore : Q;
  clarityScore : Q;
  completenessScore : Q;
  overallScore : Q;
  strengths : list string;
  improvements : list string;
  detailedFeedback : string;
  followupQuestions : list string
}.
End Content.

Module Question.
Record t := {
  id : string;
  question : string;
  type : string;
  difficulty : string;
  tips : list string;
  expectedStructure : option string
}.
End Question.

Module Response.
Record t := {
  questionId : string;
  question : string;
  audioUri : string;
  duration : Q;
  transcript : string;
  speechAnalysis : AnalysisResult;
  contentAnalysis : Content.t;
  recordedAt : string
}.
End Response.

Module Session.
Record t := {
  id : string;
  domain : string;
  experienceLevel : string;
  questions : list Question.t;
  responses : list Response.t;
  createdAt : string;
  completedAt : option string;
  overallScore : option Number
}.
End Session.

(** The state of [InterviewPrepScreen] that the functions below read and
    write. *)
Module Screen.
Record t := {
  currentSession : option Session.t;
  pastSessions : list Session.t;
  currentQuestionIndex : nat;
  showSetup : bool;
  showQuestionModal : bool;
  showResultsModal : bool;
  selectedResponse : option Response.t
}.
End Screen.

(** The update of [startNewSession] once the questions have arrived; the
    function returns early on an empty domain or experience level. *)
Definition startNewSession (domain selectedExperience : string)
    (questions : list Question.t) (id createdAt : string) (st : Screen.t)
    : Screen.t :=
  if String.eqb domain EmptyString || String.eqb selectedExperience EmptyString
  then st
  else
    let newSession :=
      {| Session.id := id;
         Session.domain := domain;
         Session.experienceLevel := selectedExperience;
         Session.questions := questions;
         Session.responses := [];
         Session.createdAt := createdAt;
         Session.completedAt := None;
         Session.overallScore := None |} in
    {| Screen.currentSession := Some newSession;
       Screen.pastSessions := Screen.pastSessions st;
       Screen.currentQuestionIndex := 0;
       Screen.showSetup := false;
       Screen.showQuestionModal := true;
       Screen.showResultsModal := Screen.showResultsModal st;
       Screen.selectedResponse := Screen.selectedResponse st |}.

(** The session after [{ ...currentSession, responses: [...responses, r] }]. *)
Definition withResponse (s : Session.t) (r : Response.t) : Session.t :=
  {| Session.id := Session.id s;
     Session.domain := Session.domain s;
     Session.experienceLevel := Session.experienceLevel s;
     Session.questions := Session.questions s;
     Session.responses := (Session.responses s ++ [r])%list;
     Session.createdAt := Session.createdAt s;
     Session.completedAt := Session.completedAt s;
     Session.overallScore := Session.overallScore s |}.

(** What one call of [stopRecording] is given by its environment: the URI
    and the length of the recording, what [analyzeAudio] returned, and the
    time. *)
Module Take.
Record t := {
  uri : option string;
  durationMillis : Q;
  speech : option AnalysisResult;
  recordedAt : string
}.
End Take.

(** The response [stopRecording] builds for a question. *)
Definition newResponse (content : Question.t -> string -> Content.t)
    (currentQuestion : Question.t) (uri : string) (take : Take.t)
    (speechAnalysis : AnalysisResult) : Response.t :=
  {| Response.questionId := Question.id currentQuestion;
     Response.question := Question.question currentQuestion;
     Response.audioUri := uri;
     Response.duration := Take.durationMillis take;
     Response.transcript := result_text speechAnalysis;
     Response.speechAnalysis := speechAnalysis;
     Response.contentAnalysis := content currentQuestion (result_text speechAnalysis);
     Response.recordedAt := Take.recordedAt take |}.

(** [stopRecording] of the interview screen, with a recording in progress:
    what it does to the state above.  [content] is the answer of
    [analyzeInterviewResponse], which catches what it throws.  The function
    returns early without a session or a URI; a [null] from [analyzeAudio]
    and a question index with no question end in the [catch], with no
    update. *)
Definition stopRecording (content : Question.t -> string -> Content.t)
    (take : Take.t) (st : Screen.t) : Screen.t :=
  match Screen.currentSession st, Take.uri take with
  | Some currentSession, Some uri =>
      if String.eqb uri EmptyString then st
      else
        match Take.speech take,
              nth_error (Session.questions currentSession)
                        (Screen.currentQuestionIndex st) with
        | Some speechAnalysis, Some currentQuestion =>
            let r := newResponse content currentQuestion uri take speechAnalysis in
            {| Screen.currentSession := Some (withResponse currentSession r);
               Screen.pastSessions := Screen.pastSessions st;
               Screen.currentQuestionIndex := Screen.currentQuestionIndex st;
               Screen.showSetup := Screen.showSetup st;
               Screen.showQuestionModal := false;
               Screen.showResultsModal := true;
               Screen.selectedResponse := Some r |}
        | _, _ => st
        end
  | _, _ => st
  end.

(** The score [completeSession] computes:
    [Math.round(responses.reduce(...) / responses.length)]. *)
Definition sessionScore (responses : list Response.t) : Number :=
  roundNumber
    (divide
       (fold_left (fun sum r => (sum + Content.overallScore (Response.contentAnalysis r))%Q)
                  responses 0%Q)
       (ofNat (List.length responses))).

Definition completedSession (now : string) (currentSession : Session.t) : Session.t :=
  {| Session.id := Session.id currentSession;
     Session.domain := Session.domain currentSession;
     Session.experienceLevel := Session.experienceLevel currentSession;
     Session.questions := Session.questions currentSession;
     Session.responses := Session.responses currentSession;
     Session.createdAt := Session.createdAt currentSession;
     Session.completedAt := Some now;
     Session.overallScore := Some (sessionScore (Session.responses currentSession)) |}.

(** [completeSession], at the time [now]; the alert it raises is left
    out. *)
Definition completeSession (now : string) (st : Screen.t) : Screen.t :=
  match Screen.currentSession st with
  | None => st
  | Some currentSession =>
      {| Screen.currentSession := None;
         Screen.pastSessions := completedSession now currentSession :: Screen.pastSessions st;
         Screen.currentQuestionIndex := 0;
         Screen.showSetup := true;
         Screen.showQuestionModal := Screen.showQuestionModal st;
         Screen.showResultsModal := Screen.showResultsModal st;
         Screen.selectedResponse := Screen.selectedResponse st |}
  end.

(** [moveToNextQuestion]: the state it leaves, and what it threw, if
    anything; [currentSession!.questions] throws when there is no
    session, after the results were hidden. *)
Definition moveToNextQuestion (now : string) (st : Screen.t)
    : option Exn * Screen.t :=
  let hidden :=
    {| Screen.currentSession := Screen.currentSession st;
       Screen.pastSessions := Screen.pastSessions st;
       Screen.currentQuestionIndex := Screen.currentQuestionIndex st;
       Screen.showSetup := Screen.showSetup st;
       Screen.showQuestionModal := Screen.showQuestionModal st;
       Screen.showResultsModal := false;
       Screen.selectedResponse := Screen.selectedResponse st |} in
  match Screen.currentSession st with
  | None => (Some (JsError "TypeError"), hidden)
  | Some currentSession =>
      if (Screen.currentQuestionIndex st + 1
          <? List.length (Session.questions currentSession))%nat
      then (None,
            {| Screen.currentSession := Screen.currentSession st;
               Screen.pastSessions := Screen.pastSessions st;
               Screen.currentQuestionIndex := Screen.currentQuestionIndex st + 1;
               Screen.showSetup := Screen.showSetup st;
               Screen.showQuestionModal := true;
               Screen.showResultsModal := false;
               Screen.selectedResponse := Screen.selectedResponse st |})
      else (None, completeSession now hidden)
  end.

(** An interview: for every take in turn, [stopRecording] and then the
    button that calls [moveToNextQuestion]; [None] when that threw. *)
Fixpoint interview (content : Question.t -> string -> Content.t) (now : string)
    (takes : list Take.t) (st : Screen.t) : option Screen.t :=
  match takes with
  | [] => Some st
  | take :: later =>
      match moveToNextQuestion now (stopRecording content take st) with
      | (None, st') => interview content now later st'
      | (Some _, _) => None
      end
  end.

(** A take that [stopRecording] accepts. *)
Definition usable (take : Take.t) : Prop :=
  (exists uri, Take.uri take = Some uri /\ uri <> EmptyString)
  /\ Take.speech take <> None.

(** The response to a question from a usable take. *)
Definition responseTo (content : Question.t -> string -> Content.t)
    (qt : Question.t * Take.t) : option Response.t :=
  match Take.uri (snd qt), Take.speech (snd qt) with
  | Some uri, Some speechAnalysis =>
      Some (newResponse content (fst qt) uri (snd qt) speechAnalysis)
  | _, _ => None
  end.


(** ** The earlier [analyzeAudio]

    The version of the entry point that returned the text alone: the same
    upload, submission and loop, and [{ text: transcript.text }] at the
    end. *)

Module Legacy.

Record TextResult := { text : string }.

Definition analyzeAudioBody (fuel : nat) (srv : Service) (uri : string)
    : Eff (option TextResult) :=
  audioUrl <- await (Upload uri) (upload srv uri) ;;
  transcriptId <- await (Submit audioUrl) (submit srv audioUrl) ;;
  transcript <- pollLoop fuel srv transcriptId 0 ;;
  ret (Some {| text := transcript_text transcript |}).

Definition analyzeAudio (fuel : nat) (srv : Service) (uri : string)
    : Eff (option TextResult) :=
  tryCatch (analyzeAudioBody fuel srv uri)
           (fun error => emit (ConsoleError error) ;;; ret None).

End Legacy.


(** ** Sample inputs *)

Definition sampleRendering (q : Q) : string := "5".

Definition spokenWord (t : string) (s e : Q) (c : option Q) : Word :=
  {| text := t; start := Some s; end_ := Some e; confidence := c; type := None |}.

Definition fillerWord (t : string) (s e : Q) (c : option Q) : Word :=
  {| text := t; start := Some s; end_ := Some e; confidence := c;
     type := Some "disfluency" |}.

Definition completed (ws : list Word) (d : option Q) : Transcript :=
  {| status := "completed"; error := ""; transcript_text := "";
     words := Some ws; audio_duration := d;
     utterances := None; auto_highlights_result := None |}.

Definition answering (s : string) : Transcript :=
  {| status := s; error := "audio could not be decoded"; transcript_text := "";
     words := None; audio_duration := None;
     utterances := None; auto_highlights_result := None |}.

(** A job that is processing twice and completed at the third poll. *)
Definition slowService : Service :=
  {| upload := fun _ => inr (Some "https://cdn.example/upload/1");
     submit := fun _ => inr (Some "job-1");
     fetch := fun _ n => inr (answering (if (n <? 2)%nat then "processing" else "completed")) |}.

(** A job that fails at its first poll. *)
Definition failingService : Service :=
  {| upload := fun _ => inr (Some "https://cdn.example/upload/2");
     submit := fun _ => inr (Some "job-2");
     fetch := fun _ _ => inr (answering "error") |}.

Definition metricsAtRate (rate : Q) : Metrics.t :=
  {| Metrics.totalFillers := 5;
     Metrics.fillerRate := rate;
     Metrics.longPauses := [];
     Metrics.speakingPace := 150%Q;
     Metrics.avgConfidence := 0.9%Q;
     Metrics.totalDurationMinutes := 1%Q;
     Metrics.mostUsedFillers := [];
     Metrics.commonFillerCounts := None;
     Metrics.pronunciationIssues := None |}.

Definition fiveWords : list Word :=
  [spokenWord "I" 0 0.2 (Some 0.9); spokenWord "I" 0.3 0.5 (Some 0.9);
   spokenWord "the" 0.6 0.8 (Some 0.9); spokenWord "the" 0.9 1.1 (Some 0.9);
   spokenWord "cat" 1.2 1.5 (Some 0.9)]%Q.

(** The word constructor, said twice. *)
Definition twoConstructors : list Word :=
  [spokenWord "The" 0 0.2 (Some 0.9); spokenWord "constructor" 0.3 0.9 (Some 0.9);
   spokenWord "calls" 1 1.3 (Some 0.9); spokenWord "another" 1.4 1.8 (Some 0.9);
   spokenWord "Constructor" 1.9 2.5 (Some 0.9)]%Q.

Definition twoFillers : Transcript :=
  completed [fillerWord "Um" 0 0.3 (Some 0.5); spokenWord "hello" 0.4 0.8 (Some 0.9);
             fillerWord "uh " 1 1.2 (Some 0.5); fillerWord "um" 2 2.2 (Some 0.5)]%Q
            (Some 60%Q).

Definition numericFillers : Transcript :=
  completed [fillerWord "2" 0 0.3 (Some 0.5); fillerWord "1" 1 1.3 (Some 0.5)]%Q
            (Some 60%Q).

Definition longSilence : Transcript :=
  completed [spokenWord "so" 0.5 1.0 (Some 0.9); spokenWord "then" 4.0 4.5 (Some 0.9)]%Q
            (Some 60%Q).

Definition mixedConfidence : Transcript :=
  completed [spokenWord "clear" 0 1 (Some 0.9); fillerWord "um" 1 2 (Some 0.1)]%Q
            (Some 60%Q).


Definition silentWord : Word :=
  {| text := "speech"; start := Some 1%Q; end_ := Some 2%Q;
     confidence := None; type := None |}.

(** ** More sample inputs *)

(** Two fillers in sixty-one seconds. *)
Definition almostTwoPerMinute : Transcript :=
  completed [fillerWord "um" 0 1 (Some 0.5); fillerWord "uh" 2 3 (Some 0.5)]%Q
            (Some 61%Q).

(** A job that never leaves the queue. *)
Definition stuckService : Service :=
  {| upload := fun _ => inr (Some "https://cdn.example/upload/3");
     submit := fun _ => inr (Some "job-3");
     fetch := fun _ _ => inr (answering "queued") |}.

(** A service whose upload fails, and one that loses the connection at
    the second poll. *)
Definition offlineService : Service :=
  {| upload := fun _ => inl (JsError "Network request failed");
     submit := fun _ => inr (Some "job-4");
     fetch := fun _ _ => inr (answering "completed") |}.

Definition droppingService : Service :=
  {| upload := fun _ => inr (Some "https://cdn.example/upload/5");
     submit := fun _ => inr (Some "job-5");
     fetch := fun _ n =>
       if (n <? 1)%nat then inr (answering "processing")
       else inl (JsError "Network request failed") |}.

(** A recording of sixty-one seconds with its analysis. *)
Definition analysedRecording : Recording.t :=
  {| Recording.uri := "file:///recording-1.m4a";
     Recording.duration := 61000;
     Recording.createdAt := "1/1/2025, 10:00:00 AM";
     Recording.analysis := Some (buildResult sampleRendering almostTwoPerMinute) |}.

(** One word, heard with little confidence. *)
Definition mumbled : Transcript :=
  completed [spokenWord "statistics" 0 1 (Some 0.5)]%Q (Some 60%Q).

(** A recording that has not been analysed. *)
Definition freshRecording : Recording.t :=
  {| Recording.uri := "file:///recording-2.m4a";
     Recording.duration := 5000;
     Recording.createdAt := "1/1/2025, 10:05:00 AM";
     Recording.analysis := None |}.

(** The five words, a filler before them, and the letter case changed. *)
Definition fiveWordsAgain : list Word :=
  [fillerWord "um" 0 0.1 (Some 0.5); spokenWord "i" 0 0.2 None;
   spokenWord "I" 0.3 0.5 None; spokenWord "The" 0.6 0.8 None;
   spokenWord "THE" 0.9 1.1 None; spokenWord "Cat" 1.2 1.5 None]%Q.

(** The question and the content analysis that the interview helper falls
    back to. *)
Definition fallbackQuestion : Question.t :=
  {| Question.id := "fallback-1";
     Question.question := "Describe a challenging Sales project you worked on.";
     Question.type := "technical";
     Question.difficulty := "medium";
     Question.tips := ["Mention tools/tech used"; "Describe problem & your solution"];
     Question.expectedStructure := None |}.

Definition fallbackContent : Content.t :=
  {| Content.relevanceScore := 70;
     Content.structureScore := 65;
     Content.clarityScore := 75;
     Content.completenessScore := 60;
     Content.overallScore := 67;
     Content.strengths :=
       ["Good technical knowledge"; "Clear communication style";
        "Engaged and thoughtful response"];
     Content.improvements :=
       ["Be more specific with examples"; "Structure answers better";
        "Avoid rambling"];
     Content.detailedFeedback :=
       "Decent response with technical clarity. Could be improved by structuring better and using examples aligned to the question.";
     Content.followupQuestions :=
       ["Can you walk me through another project using this approach?";
        "How would you apply this to a team conflict situation?"] |}.

Definition sampleTake : Take.t :=
  {| Take.uri := Some "file:///answer.m4a";
     Take.durationMillis := 61000;
     Take.speech := Some (buildResult sampleRendering almostTwoPerMinute);
     Take.recordedAt := "2025-01-01T10:00:00.000Z" |}.


(** The screen as it is first rendered. *)
Definition setupScreen : Screen.t :=
  {| Screen.currentSession := None;
     Screen.pastSessions := [];
     Screen.currentQuestionIndex := 0;
     Screen.showSetup := true;
     Screen.showQuestionModal := false;
     Screen.showResultsModal := false;
     Screen.selectedResponse := None |}.


(** ** Facts about the runtime model *)

Section SortFacts.
Context {A : Type} (cmp : A -> A -> option Z) (rank : A -> Z) (P : A -> Prop).
Hypothesis cmp_rank :
  forall x y, P x -> P y -> cmp x y = Some (rank x - rank y)%Z.

Lemma insert_perm (x : A) (l : list A) :
  Permutation (JS.insert cmp x l) (x :: l).
Proof.
  induction l as [|y l IH]; simpl; [reflexivity|].
  destruct (JS.goesAfter cmp x y); [|reflexivity].
  rewrite IH. apply perm_swap.
Qed.

Lemma sort_perm (l : list A) : Permutation (JS.sort cmp l) l.
Proof.
  induction l as [|x l IH]; simpl; [reflexivity|].
  rewrite insert_perm. now constructor.
Qed.

Lemma sort_Forall (l : list A) : Forall P l -> Forall P (JS.sort cmp l).
Proof.
  intros H. rewrite Forall_forall in *. intros x Hx. apply H.
  now apply (Permutation_in _ (sort_perm l)).
Qed.

Lemma goesAfter_rank (x y : A) :
  P x -> P y -> JS.goesAfter cmp x y = (0 <? rank x - rank y)%Z.
Proof. intros Hx Hy. unfold JS.goesAfter. now rewrite cmp_rank. Qed.

Lemma insert_sorted (x : A) (l : list A) :
  P x -> Forall P l ->
  StronglySorted (fun a b => (rank a <= rank b)%Z) l ->
  StronglySorted (fun a b => (rank a <= rank b)%Z) (JS.insert cmp x l).
Proof.
  intros Px Pl Hs. induction Hs as [|y l Hs IH Hy]; simpl.
  - repeat constructor.
  - inversion Pl as [|? ? Py Pl']; subst.
    rewrite (goesAfter_rank x y Px Py).
    destruct (Z.ltb_spec 0 (rank x - rank y)) as [Hlt|Hge].
    + constructor; [now apply IH|].
      rewrite Forall_forall. intros z Hz.
      apply (Permutation_in _ (insert_perm x l)) in Hz.
      destruct Hz as [<-|Hz]; [lia|].
      rewrite Forall_forall in Hy. now apply Hy.
    + constructor; [now constructor|].
      constructor; [lia|].
      rewrite Forall_forall in Hy |- *. intros z Hz.
      specialize (Hy z Hz). lia.
Qed.

Lemma sort_sorted (l : list A) :
  Forall P l ->
  StronglySorted (fun a b => (rank a <= rank b)%Z) (JS.sort cmp l).
Proof.
  induction l as [|x l IH]; intros Pl; simpl; [constructor|].
  inversion Pl; subst.
  apply insert_sorted; [assumption|now apply sort_Forall|now apply IH].
Qed.

(** Stability: elements of one rank keep their relative order. *)
Lemma insert_stable (r : Z) (x : A) (l : list A) :
  P x -> Forall P l ->
  filter (fun a => (rank a =? r)%Z) (JS.insert cmp x l)
  = filter (fun a => (rank a =? r)%Z) (x :: l).
Proof.
  intros Px Pl. induction l as [|y l IH]; [reflexivity|].
  inversion Pl as [|? ? Py Pl']; subst.
  cbn [JS.insert]. rewrite (goesAfter_rank x y Px Py).
  destruct (Z.ltb_spec 0 (rank x - rank y)) as [Hlt|Hge]; [|reflexivity].
  cbn [filter] in *. rewrite (IH Pl').
  destruct (Z.eqb_spec (rank x) r), (Z.eqb_spec (rank y) r); try reflexivity.
  lia.
Qed.

Lemma sort_stable (r : Z) (l : list A) :
  Forall P l ->
  filter (fun a => (rank a =? r)%Z) (JS.sort cmp l)
  = filter (fun a => (rank a =? r)%Z) l.
Proof.
  induction l as [|x l IH]; intros Pl; [reflexivity|].
  inversion Pl; subst.
  cbn [JS.sort]. rewrite insert_stable by (try assumption; now apply sort_Forall).
  cbn [filter]. now rewrite IH.
Qed.
End SortFacts.

Lemma includes_In (l : list string) (x : string) :
  JS.includes l x = true <-> In x l.
Proof.
  unfold JS.includes. rewrite existsb_exists. split.
  - intros (y & Hy & He). apply String.eqb_eq in He. now subst.
  - intros H. exists x. split; [exact H|apply String.eqb_refl].
Qed.

Lemma includes_false (l : list string) (x : string) :
  JS.includes l x = false <-> ~ In x l.
Proof.
  rewrite <- includes_In. destruct (JS.includes l x); split; congruence.
Qed.

Lemma unique_acc_spec (l seen : list string) :
  NoDup (JS.unique_acc seen l)
  /\ forall x, In x (JS.unique_acc seen l) <-> In x l /\ ~ In x seen.
Proof.
  revert seen. induction l as [|y l IH]; intros seen; simpl.
  - split; [constructor|]. intros x. tauto.
  - destruct (JS.includes seen y) eqn:E.
    + apply includes_In in E. destruct (IH seen) as [Hn Hi].
      split; [exact Hn|]. intros x. rewrite Hi.
      split; [tauto|]. intros [[->|H] Hs]; tauto.
    + apply includes_false in E. destruct (IH (seen ++ [y])%list) as [Hn Hi].
      split.
      * constructor; [|exact Hn]. rewrite Hi, in_app_iff. simpl. tauto.
      * intros x. simpl. rewrite Hi, in_app_iff. simpl.
        destruct (string_dec y x) as [->|Hne]; [tauto|].
        split.
        -- intros [H|[H1 H2]]; [congruence|]. tauto.
        -- intros [[H|H] Hs]; [congruence|]. right. tauto.
Qed.

Lemma unique_NoDup (l : list string) : NoDup (JS.unique l).
Proof. apply unique_acc_spec. Qed.

Lemma unique_In (l : list string) (x : string) : In x (JS.unique l) <-> In x l.
Proof.
  unfold JS.unique. rewrite (proj2 (unique_acc_spec l [])). simpl. tauto.
Qed.

(** *** Counter tables *)

Lemma get_set {V} (o : JS.Obj V) (k k' : string) (v : V) :
  JS.get (JS.set o k v) k' = if String.eqb k' k then Some v else JS.get o k'.
Proof.
  induction o as [|[k0 v0] o IH]; simpl.
  - reflexivity.
  - destruct (String.eqb_spec k k0) as [->|Hk]; simpl.
    + destruct (String.eqb_spec k' k0); reflexivity.
    + rewrite IH. destruct (String.eqb_spec k' k0) as [->|Hk'].
      * destruct (String.eqb_spec k0 k); congruence.
      * reflexivity.
Qed.

Lemma keys_set {V} (o : JS.Obj V) (k : string) (v : V) :
  map fst (JS.set o k v)
  = if JS.includes (map fst o) k then map fst o else (map fst o ++ [k])%list.
Proof.
  induction o as [|[k0 v0] o IH]; simpl; [reflexivity|].
  unfold JS.includes in *. simpl.
  destruct (String.eqb_spec k k0) as [->|Hk]; simpl; [reflexivity|].
  rewrite IH. now destruct (existsb (String.eqb k) (map fst o)).
Qed.

Lemma inherited_proto (k : string) : inherited k = false -> k <> "__proto__".
Proof. intros H ->. discriminate. Qed.

(** On a key that is not inherited, [bump] adds one to a number. *)
Lemma bump_number (o : JS.Obj JS.Value) (k : string) :
  numeric o -> inherited k = false ->
  bump o k = JS.set o k (JS.Num (countAt o k + 1)).
Proof.
  intros Hn Hk. unfold bump, JS.assign, JS.lookup, countAt.
  destruct (String.eqb_spec k "__proto__") as [E|_];
    [now apply inherited_proto in E|].
  unfold inherited in Hk.
  destruct (JS.get o k) as [v|] eqn:E.
  - destruct (Hn k v E) as [n ->]. now destruct n.
  - destruct (JS.get JS.objectPrototype k); [discriminate|reflexivity].
Qed.

Lemma numeric_set (o : JS.Obj JS.Value) (k : string) (n : nat) :
  numeric o -> numeric (JS.set o k (JS.Num n)).
Proof.
  intros Hn k' v. rewrite get_set.
  destruct (String.eqb k' k); [|apply Hn].
  intros H. injection H as <-. now exists n.
Qed.

(** The table after counting [ks] into [o], one [bump] per element. *)
Lemma tally (ks : list string) :
  (forall k, In k ks -> inherited k = false) ->
  forall o, numeric o ->
    numeric (fold_left bump ks o)
    /\ map fst (fold_left bump ks o)
       = (map fst o ++ JS.unique_acc (map fst o) ks)%list
    /\ forall k, countAt (fold_left bump ks o) k
                 = countAt o k + count_occ string_dec ks k.
Proof.
  induction ks as [|k0 ks IH]; intros Hks o Hn; simpl.
  - split; [exact Hn|]. split; [now rewrite app_nil_r|]. intros k. lia.
  - assert (Hk0 : inherited k0 = false) by (apply Hks; now left).
    pose proof (bump_number o k0 Hn Hk0) as Hb.
    destruct (IH (fun k H => Hks k (or_intror H)) (bump o k0)) as (Hn' & Hkeys & Hcount).
    { rewrite Hb. now apply numeric_set. }
    split; [exact Hn'|]. split.
    + rewrite Hkeys, Hb, keys_set.
      destruct (JS.includes (map fst o) k0); [reflexivity|].
      now rewrite <- app_assoc.
    + intros k. rewrite Hcount, Hb. unfold countAt at 1. rewrite get_set.
      destruct (String.eqb_spec k k0) as [->|Hk].
      * destruct (string_dec k0 k0); [lia|congruence].
      * fold (countAt o k). destruct (string_dec k0 k); [congruence|lia].
Qed.

Lemma table_of_keys (o : JS.Obj JS.Value) :
  numeric o -> NoDup (map fst o) ->
  o = map (fun k => (k, JS.Num (countAt o k))) (map fst o).
Proof.
  induction o as [|[k v] o IH]; simpl; [reflexivity|].
  intros Hn Hd. inversion Hd as [|? ? Hk Hd']; subst.
  assert (Hv : exists n, v = JS.Num n).
  { apply (Hn k). simpl. now rewrite String.eqb_refl. }
  destruct Hv as [n ->].
  unfold countAt at 1. simpl. rewrite String.eqb_refl. f_equal.
  rewrite IH at 1.
  - apply map_ext_in. intros k' Hk'. unfold countAt. simpl.
    destruct (String.eqb_spec k' k) as [->|]; [contradiction|reflexivity].
  - intros k' v' H. apply (Hn k'). simpl.
    destruct (String.eqb_spec k' k) as [->|]; [|exact H].
    exfalso. apply Hk. clear - H.
    induction o as [|[k1 v1] o IHo]; [discriminate|].
    simpl in *. destruct (String.eqb_spec k k1) as [->|]; [now left|].
    right. now apply IHo.
  - exact Hd'.
Qed.

Lemma tally_frequencyTable (ks : list string) :
  (forall k, In k ks -> inherited k = false) ->
  fold_left bump ks [] = map numEntry (frequencyTable ks).
Proof.
  intros Hks.
  destruct (tally ks Hks []) as (Hn & Hkeys & Hcount); [intros k v; discriminate|].
  simpl in Hkeys.
  rewrite (table_of_keys (fold_left bump ks []) Hn).
  - rewrite Hkeys. unfold frequencyTable. rewrite map_map.
    apply map_ext. intros k. unfold numEntry. simpl. now rewrite Hcount.
  - rewrite Hkeys. apply unique_NoDup.
Qed.

Lemma fold_bump_filter {A} (cond : A -> bool) (key : A -> string)
    (l : list A) (o : JS.Obj JS.Value) :
  fold_left (fun o w => if cond w then bump o (key w) else o) l o
  = fold_left bump (map key (filter cond l)) o.
Proof.
  revert o. induction l as [|w l IH]; intros o; simpl; [reflexivity|].
  rewrite IH. now destruct (cond w).
Qed.

Lemma frequencyTable_In (ks : list string) (k : string) (c : nat) :
  In (k, c) (frequencyTable ks) <-> In k ks /\ c = count_occ string_dec ks k.
Proof.
  unfold frequencyTable. rewrite in_map_iff. split.
  - intros (k' & He & Hi). inversion He; subst. now rewrite <- unique_In.
  - intros [Hi ->]. exists k. now rewrite unique_In.
Qed.

Lemma frequencyTable_keys (ks : list string) :
  map fst (frequencyTable ks) = JS.unique ks.
Proof.
  unfold frequencyTable. rewrite map_map. simpl. apply map_id.
Qed.

(** *** [Object.entries] *)

Lemma filter_partition_perm {A} (f : A -> bool) (l : list A) :
  Permutation (filter f l ++ filter (fun x => negb (f x)) l) l.
Proof.
  induction l as [|x l IH]; simpl; [reflexivity|].
  destruct (f x); simpl.
  - now constructor.
  - rewrite <- Permutation_middle. now constructor.
Qed.

Lemma entries_perm {V} (o : JS.Obj V) : Permutation (JS.Object_entries o) o.
Proof.
  unfold JS.Object_entries.
  rewrite (sort_perm _ (filter (fun e => JS.is_index (fst e)) o)).
  apply (filter_partition_perm (fun e => JS.is_index (fst e))).
Qed.

Lemma filter_none {A} (f : A -> bool) (l : list A) :
  (forall x, In x l -> f x = false) ->
  filter f l = [] /\ filter (fun x => negb (f x)) l = l.
Proof.
  induction l as [|x l IH]; intros H; simpl; [now split|].
  rewrite (H x (or_introl eq_refl)). simpl.
  destruct IH as [IH1 IH2]; [intros y Hy; apply H; now right|].
  split; [exact IH1|now rewrite IH2].
Qed.

Lemma entries_no_index {V} (o : JS.Obj V) :
  (forall k, In k (map fst o) -> JS.is_index k = false) ->
  JS.Object_entries o = o.
Proof.
  intros H. unfold JS.Object_entries.
  destruct (filter_none (fun e => JS.is_index (fst e)) o) as [H1 H2].
  { intros e He. apply H. now apply in_map. }
  now rewrite H1, H2.
Qed.

Lemma insert_map {A B} (f : A -> B) (cmpA : A -> A -> option Z)
    (cmpB : B -> B -> option Z) (x : A) (l : list A) :
  (forall a b, cmpB (f a) (f b) = cmpA a b) ->
  JS.insert cmpB (f x) (map f l) = map f (JS.insert cmpA x l).
Proof.
  intros H. induction l as [|y l IH]; simpl; [reflexivity|].
  unfold JS.goesAfter. rewrite H. destruct (cmpA x y) as [z|]; [|reflexivity].
  destruct (0 <? z)%Z; [|reflexivity]. simpl. now rewrite IH.
Qed.

Lemma sort_map {A B} (f : A -> B) (cmpA : A -> A -> option Z)
    (cmpB : B -> B -> option Z) (l : list A) :
  (forall a b, cmpB (f a) (f b) = cmpA a b) ->
  JS.sort cmpB (map f l) = map f (JS.sort cmpA l).
Proof.
  intros H. induction l as [|x l IH]; simpl; [reflexivity|].
  rewrite IH. now apply insert_map.
Qed.

Lemma filter_map {A B} (f : A -> B) (p : B -> bool) (l : list A) :
  filter p (map f l) = map f (filter (fun a => p (f a)) l).
Proof.
  induction l as [|x l IH]; simpl; [reflexivity|].
  destruct (p (f x)); simpl; now rewrite IH.
Qed.

Lemma entries_numEntry (o : JS.Obj nat) :
  JS.Object_entries (map numEntry o) = map numEntry (JS.Object_entries o).
Proof.
  unfold JS.Object_entries. rewrite map_app, !filter_map.
  f_equal. now apply sort_map.
Qed.

(** ** Frequency tables of the analyzer *)

Lemma byCountDesc_rank (a b : WordCount) :
  isNumbered a -> isNumbered b ->
  byCountDesc a b = Some (countRank a - countRank b)%Z.
Proof.
  intros [n Hn] [m Hm]. unfold byCountDesc, countRank, countOf.
  rewrite Hn, Hm. simpl. f_equal. lia.
Qed.

Lemma sort_descending (l : list WordCount) :
  Forall isNumbered l -> descending (JS.sort byCountDesc l).
Proof.
  intros Hl.
  pose proof (sort_sorted byCountDesc countRank isNumbered byCountDesc_rank l Hl) as H.
  unfold descending. induction H as [|a l' Hs IH Ha]; constructor.
  - exact IH.
  - rewrite Forall_forall in Ha |- *. intros b Hb. specialize (Ha b Hb).
    unfold countRank in Ha. lia.
Qed.

Lemma hasCount_rank (c : nat) (l : list WordCount) :
  Forall isNumbered l ->
  filter (hasCount c) l = filter (fun a => (countRank a =? - Z.of_nat c)%Z) l.
Proof.
  intros Hl. induction Hl as [|a l [n Hn] Hl IH]; [reflexivity|].
  cbn [filter]. rewrite IH. unfold hasCount, countRank, countOf. rewrite Hn.
  destruct (Nat.eqb_spec n c), (Z.eqb_spec (- Z.of_nat n) (- Z.of_nat c));
    try reflexivity; lia.
Qed.

Lemma sort_ties (c : nat) (l : list WordCount) :
  Forall isNumbered l ->
  filter (hasCount c) (JS.sort byCountDesc l) = filter (hasCount c) l.
Proof.
  intros Hl.
  rewrite !hasCount_rank by (try assumption; now apply (sort_Forall byCountDesc)).
  now apply (sort_stable byCountDesc countRank isNumbered byCountDesc_rank).
Qed.

Lemma numbered_all (l : list (string * nat)) : Forall isNumbered (map numbered l).
Proof.
  rewrite Forall_forall. intros e He. apply in_map_iff in He.
  destruct He as (x & <- & _). now exists (snd x).
Qed.

Lemma toWordCount_numEntry (l : list (string * nat)) :
  map toWordCount (map numEntry l) = map numbered l.
Proof. rewrite map_map. reflexivity. Qed.

Lemma countFillers_table (fs : list Word) :
  (forall k, In k (map (fun w => JS.trim (JS.toLowerCase (text w))) fs) ->
             inherited k = false) ->
  countFillers fs
  = map numEntry
      (frequencyTable (map (fun w => JS.trim (JS.toLowerCase (text w))) fs)).
Proof.
  intros H. rewrite <- (tally_frequencyTable _ H). unfold countFillers.
  generalize (@nil (string * JS.Value)). clear H.
  induction fs as [|f fs IH]; intros o; simpl.
  - reflexivity.
  - apply IH.
Qed.

Lemma repeated_fold (ws : list Word) :
  fold_left
    (fun counts w =>
       if negb (isDisfluency w) then
         let wtext := JS.toLowerCase (text w) in
         if (1 <? String.length wtext)%nat then bump counts wtext else counts
       else counts)
    ws []
  = fold_left bump (map (fun w => JS.toLowerCase (text w)) (filter repeatable ws)) [].
Proof.
  rewrite <- (fold_bump_filter repeatable (fun w => JS.toLowerCase (text w))).
  generalize (@nil (string * JS.Value)). induction ws as [|w ws IH]; intros o; simpl.
  - reflexivity.
  - rewrite IH. unfold repeatable, isSpoken.
    now destruct (negb (isDisfluency w)), (1 <? String.length (JS.toLowerCase (text w)))%nat.
Qed.

Lemma repeatable_long (ws : list Word) (k : string) :
  In k (map (fun w => JS.toLowerCase (text w)) (filter repeatable ws)) ->
  1 < String.length k.
Proof.
  rewrite in_map_iff. intros (w & <- & Hw). apply filter_In in Hw.
  destruct Hw as [_ Hw]. unfold repeatable in Hw.
  apply andb_true_iff in Hw. destruct Hw as [_ Hw]. now apply Nat.ltb_lt in Hw.
Qed.

Lemma repeatable_spoken (ws : list Word) (k : string) :
  In k (map (fun w => JS.toLowerCase (text w)) (filter repeatable ws)) ->
  In k (spokenTexts ws).
Proof.
  unfold spokenTexts. rewrite !in_map_iff. intros (w & <- & Hw).
  exists w. split; [reflexivity|]. apply filter_In in Hw. apply filter_In.
  unfold repeatable in Hw. destruct Hw as [Hin Hw].
  apply andb_true_iff in Hw. tauto.
Qed.

Lemma repeatable_count (ws : list Word) (k : string) :
  1 < String.length k ->
  count_occ string_dec (map (fun w => JS.toLowerCase (text w)) (filter repeatable ws)) k
  = timesSpoken ws k.
Proof.
  intros Hk. unfold timesSpoken, spokenTexts.
  induction ws as [|w ws IH]; simpl; [reflexivity|].
  unfold repeatable at 1. destruct (isSpoken w); simpl; [|exact IH].
  destruct (Nat.ltb_spec 1 (String.length (JS.toLowerCase (text w)))) as [Hl|Hl]; simpl.
  - now rewrite IH.
  - destruct (string_dec (JS.toLowerCase (text w)) k) as [<-|]; [lia|exact IH].
Qed.

Lemma NoDup_keys_filter {B} (f : string * B -> bool) (l : list (string * B)) :
  NoDup (map fst l) -> NoDup (map fst (filter f l)).
Proof.
  induction l as [|e l IH]; simpl; intros H; [constructor|].
  inversion H as [|? ? Hn Hd]; subst.
  destruct (f e); simpl; [|now apply IH].
  constructor; [|now apply IH].
  intros Hin. apply Hn. apply in_map_iff in Hin.
  destruct Hin as (e' & He & Hin). apply filter_In in Hin.
  rewrite <- He. apply in_map. tauto.
Qed.

Lemma numbered_word (l : list (string * nat)) :
  map word (map numbered l) = map fst l.
Proof. rewrite map_map. reflexivity. Qed.

Lemma above_num (n m : nat) : JS.above (JS.Num n) m = (m <? n)%nat.
Proof.
  unfold JS.above. simpl.
  destruct (Nat.ltb_spec m n), (Z.ltb_spec (Z.of_nat m) (Z.of_nat n));
    try reflexivity; lia.
Qed.

(** X10.  What [getRepeatedWords] returns when no spoken word is spelled
    like an inherited property: exactly the lower-cased texts of the
    spoken words longer than one character that occur more than once,
    each once and with its count, in descending order of count. *)
Lemma repeatedWords_of_plain_words (ws : list Word) :
  (forall k, In k (spokenTexts ws) -> inherited k = false) ->
  (forall w c,
      In {| word := w; count := JS.Num c |} (getRepeatedWords ws)
      <-> 1 < String.length w /\ c = timesSpoken ws w /\ 1 < c)
  /\ Forall isNumbered (getRepeatedWords ws)
  /\ NoDup (map word (getRepeatedWords ws))
  /\ descending (getRepeatedWords ws).
Proof.
  intros Hplain. unfold getRepeatedWords. rewrite repeated_fold.
  set (keys := map (fun w => JS.toLowerCase (text w)) (filter repeatable ws)).
  rewrite tally_frequencyTable
    by (intros k Hk; apply Hplain; now apply repeatable_spoken).
  rewrite entries_numEntry, filter_map, toWordCount_numEntry.
  set (kept := filter (fun a => JS.above (snd (numEntry a)) 1)
                      (JS.Object_entries (frequencyTable keys))).
  assert (Hperm : Permutation (JS.sort byCountDesc (map numbered kept))
                              (map numbered kept)) by apply sort_perm.
  split; [|split; [|split]].
  - intros w c. split.
    + intros H. apply (Permutation_in _ Hperm) in H.
      apply in_map_iff in H. destruct H as ([k v] & He & H).
      unfold numbered in He. simpl in He. inversion He; subst k v.
      apply filter_In in H. destruct H as [H Hc]. simpl in Hc.
      rewrite above_num in Hc. apply Nat.ltb_lt in Hc.
      apply (Permutation_in _ (entries_perm _)) in H.
      apply frequencyTable_In in H. destruct H as [Hin ->].
      pose proof (repeatable_long ws w Hin) as Hl.
      unfold keys in *. rewrite repeatable_count in * by assumption. tauto.
    + intros (Hl & -> & Hc).
      apply (Permutation_in _ (Permutation_sym Hperm)).
      apply in_map_iff. exists (w, timesSpoken ws w). split; [reflexivity|].
      apply filter_In. split; [|simpl; rewrite above_num; now apply Nat.ltb_lt].
      apply (Permutation_in _ (Permutation_sym (entries_perm _))).
      apply frequencyTable_In. unfold keys.
      rewrite repeatable_count by assumption. split; [|reflexivity].
      rewrite <- (repeatable_count ws w Hl) in Hc.
      apply (count_occ_In string_dec). lia.
  - apply sort_Forall, numbered_all.
  - apply (Permutation_NoDup (Permutation_map word (Permutation_sym Hperm))).
    rewrite numbered_word. apply NoDup_keys_filter.
    apply (Permutation_NoDup (Permutation_map fst (Permutation_sym (entries_perm _)))).
    rewrite frequencyTable_keys. apply unique_NoDup.
  - apply sort_descending, numbered_all.
Qed.

(** C7, the code at the failing input.  constructor is said twice among
    five spoken words, and [getRepeatedWords] does not list it: the first
    read of [counts["constructor"]] finds the inherited function, [+ 1]
    makes a string of it, and the string is not above 1.  The example of
    the design document is computed as it says. *)
Theorem repeatedWords_misses_constructor :
  timesSpoken twoConstructors "constructor" = 2
  /\ 1 < String.length "constructor"
  /\ getRepeatedWords twoConstructors = []
  /\ getRepeatedWords fiveWords = [{| word := "the"; count := JS.Num 2 |}].
Proof.
  split; [reflexivity|]. split; [simpl; lia|]. split; reflexivity.
Qed.

(** C6, amended.  When no filler text is the name of an inherited
    property, [mostUsedFillers] is the first ten entries of a ranking of
    the frequency table of the lower-cased, trimmed texts of the
    disfluency-tagged words.  The ranking holds every entry of the table
    once, in descending order of count; entries with equal counts keep the
    order [Object.entries] gives them, which is the order of first
    appearance in the transcript whenever no filler text is an array
    index. *)
Theorem mostUsedFillers_top10 (nts : Q -> string) (t : Transcript) :
  let texts := fillerTexts (orEmpty (words t)) in
  let table := frequencyTable texts in
  (forall k, In k texts -> inherited k = false) ->
  exists ranked,
    mostUsedFillers (analyzeTranscript nts t) = firstn 10 ranked
    /\ Permutation ranked (map numbered table)
    /\ descending ranked
    /\ (forall c, filter (hasCount c) ranked
                  = filter (hasCount c) (map numbered (JS.Object_entries table)))
    /\ ((forall k, In k texts -> JS.is_index k = false) ->
        forall c, filter (hasCount c) ranked
                  = filter (hasCount c) (map numbered table)).
Proof.
  intros texts table Hplain.
  exists (JS.sort byCountDesc (map numbered (JS.Object_entries table))).
  split; [|split; [|split; [|split]]].
  - unfold analyzeTranscript. cbn [mostUsedFillers].
    rewrite (countFillers_table _ Hplain), entries_numEntry, toWordCount_numEntry.
    reflexivity.
  - rewrite (sort_perm byCountDesc). apply Permutation_map, entries_perm.
  - apply sort_descending, numbered_all.
  - intros c. apply sort_ties, numbered_all.
  - intros Hk c. rewrite sort_ties by apply numbered_all.
    rewrite entries_no_index; [reflexivity|].
    intros k Hin. apply Hk. unfold table in Hin.
    rewrite frequencyTable_keys in Hin.
    exact (proj1 (unique_In _ _) Hin).
Qed.

(** ** Long pauses *)

Lemma Qltb_lt (a b : Q) : JS.Qltb a b = true <-> (a < b)%Q.
Proof.
  unfold JS.Qltb. rewrite negb_true_iff. split.
  - intros H. apply Qnot_le_lt. intros Hle.
    apply Qle_bool_iff in Hle. congruence.
  - intros H. destruct (Qle_bool b a) eqn:E; [|reflexivity].
    apply Qle_bool_iff in E. exfalso. now apply (Qlt_not_le a b).
Qed.

Lemma Qltb_ge (a b : Q) : JS.Qltb a b = false <-> (b <= a)%Q.
Proof.
  unfold JS.Qltb. rewrite negb_false_iff. apply Qle_bool_iff.
Qed.





(** ** Rates, pace and confidence *)

Lemma Math_round_comp (x y : Q) : (x == y)%Q -> JS.Math_round x = JS.Math_round y.
Proof. intros H. unfold JS.Math_round. now rewrite H. Qed.

Lemma Math_round_nonneg (x : Q) : (0 <= x)%Q -> (0 <= JS.Math_round x)%Z.
Proof.
  intros H. unfold JS.Math_round. change 0%Z with (Qfloor 0.5).
  apply Qfloor_resp_le. lra.
Qed.

Lemma Math_round_le (x : Q) (z : Z) :
  (x <= inject_Z z)%Q -> (JS.Math_round x <= z)%Z.
Proof.
  intros H. destruct (Z_le_gt_dec (JS.Math_round x) z) as [Hle|Hgt]; [exact Hle|].
  exfalso. unfold JS.Math_round in Hgt.
  assert (H1 : (inject_Z (z + 1) <= inject_Z (Qfloor (x + 0.5)))%Q)
    by (rewrite <- Zle_Qle; lia).
  pose proof (Qfloor_le (x + 0.5)) as H2.
  rewrite inject_Z_plus in H1. change (inject_Z 1) with 1%Q in H1. lra.
Qed.

Lemma ofNat_nonneg (n : nat) : (0 <= ofNat n)%Q.
Proof.
  unfold ofNat. change 0%Q with (inject_Z 0). rewrite <- Zle_Qle. lia.
Qed.



Lemma div60 (d : Q) : (d / 60 == d * (1 # 60))%Q.
Proof. reflexivity. Qed.

Lemma or_default_nonzero (x : option Q) (d : Q) :
  ~ (d == 0)%Q -> ~ (JS.or_default x d == 0)%Q.
Proof.
  intros Hd. unfold JS.or_default. destruct x as [v|]; [|exact Hd].
  destruct (Qeq_bool v 0) eqn:E; [exact Hd|]. now apply Qeq_bool_neq.
Qed.

Lemma minutes_nonzero (t : Transcript) : ~ (totalDurationMinutes t == 0)%Q.
Proof.
  unfold totalDurationMinutes, totalDurationSeconds.
  pose proof (or_default_nonzero (audio_duration t) 1) as H.
  rewrite div60. intros E. apply H; [discriminate|]. lra.
Qed.

Lemma minutes_positive (t : Transcript) :
  durationNotNegative t -> (0 < totalDurationMinutes t)%Q.
Proof.
  unfold durationNotNegative. intros Hd.
  pose proof (minutes_nonzero t) as Hn.
  unfold totalDurationMinutes, totalDurationSeconds, JS.or_default in *.
  rewrite div60 in *.
  destruct (audio_duration t) as [d|]; [|lra].
  destruct (Qeq_bool d 0); lra.
Qed.

Lemma rate_nonneg (n : nat) (m : Q) : (0 < m)%Q -> (0 <= ofNat n / m)%Q.
Proof.
  intros H. apply Qle_shift_div_l; [assumption|].
  rewrite Qmult_0_l. apply ofNat_nonneg.
Qed.

Lemma rate_zero (m : Q) : (ofNat 0 / m == 0)%Q.
Proof. unfold Qdiv. apply Qmult_0_l. Qed.

Lemma or_default_value (w : Word) :
  (JS.or_default (confidence w) 0 == confidenceValue w)%Q.
Proof.
  unfold JS.or_default, confidenceValue.
  destruct (confidence w) as [c|]; [|reflexivity].
  destruct (Qeq_bool c 0) eqn:E; [|reflexivity].
  apply Qeq_bool_eq in E. now rewrite E.
Qed.

Lemma fold_confidence (ws : list Word) (a : Q) :
  (fold_left (fun sum w => sum + JS.or_default (confidence w) 0) ws a
   == a + sumQ (map confidenceValue ws))%Q.
Proof.
  revert a. induction ws as [|w ws IH]; intros a; simpl.
  - lra.
  - rewrite IH, or_default_value. lra.
Qed.

Lemma sumConfidence_sum (ws : list Word) :
  (sumConfidence ws == sumQ (map confidenceValue ws))%Q.
Proof. unfold sumConfidence. rewrite fold_confidence. lra. Qed.





(** C3.  For a transcript whose duration is not negative (the data model
    has [durationSeconds > 0]), [fillerRate] and [speakingPace] are not
    negative.  A transcript without words, whatever its duration, yields
    the degenerate metrics: filler rate 0, pace 0, confidence score 0, no
    filler, no most-used filler, no long pause, no pronunciation issue and
    no repeated word. *)
Theorem degenerate_metrics (nts : Q -> string) (t : Transcript) :
  let a := analyzeTranscript nts t in
  (durationNotNegative t -> (0 <= fillerRate a)%Q /\ (0 <= speakingPace a)%Z)
  /\ (orEmpty (words t) = [] ->
      (fillerRate a == 0)%Q /\ speakingPace a = 0%Z /\ confidenceScore a = 0%Z
      /\ totalFillers a = 0 /\ fillers a = [] /\ mostUsedFillers a = []
      /\ longPauses a = [] /\ pronunciationIssues a = []
      /\ repeatedWords (buildResult nts t) = []).
Proof.
  intros a. split.
  - intros Hd. pose proof (minutes_positive t Hd) as Hm.
    unfold a, analyzeTranscript. cbn [fillerRate speakingPace]. split.
    + apply Qle_shift_div_l; [reflexivity|]. rewrite Qmult_0_l.
      change 0%Q with (inject_Z 0). rewrite <- Zle_Qle.
      apply Math_round_nonneg.
      pose proof (rate_nonneg (List.length (filter isDisfluency (orEmpty (words t)))) _ Hm).
      lra.
    + apply Math_round_nonneg. now apply rate_nonneg.
  - intros Hw. unfold buildResult. cbn [repeatedWords].
    unfold a, analyzeTranscript.
    cbn [fillerRate speakingPace confidenceScore totalFillers fillers
         mostUsedFillers longPauses pronunciationIssues].
    rewrite Hw. cbn [filter List.length Nat.ltb Nat.leb map].
    repeat split; try reflexivity.
    + rewrite (Math_round_comp _ 0%Q); [reflexivity|]. rewrite rate_zero. lra.
    + now rewrite (Math_round_comp _ 0%Q) by apply rate_zero.
Qed.


(** ** Words without a confidence *)

Lemma filter_insert {A} (f : A -> bool) (l1 l2 : list A) (x : A) :
  filter f (l1 ++ x :: l2)
  = (filter f l1 ++ (if f x then [x] else []) ++ filter f l2)%list.
Proof.
  rewrite filter_app. simpl. now destruct (f x).
Qed.

Lemma sumQ_app (l1 l2 : list Q) : (sumQ (l1 ++ l2) == sumQ l1 + sumQ l2)%Q.
Proof.
  induction l1 as [|x l1 IH]; simpl; [lra|].
  unfold sumQ in *. rewrite IH. lra.
Qed.

(** C10.  A word that is not tagged as disfluency and has no confidence
    never adds a pronunciation issue, adds nothing to the sum of the
    confidences and counts as one more spoken word in the average: which
    ever place it is inserted at.  Hence there are a transcript and such a
    word whose addition lowers [confidenceScore] and leaves
    [pronunciationIssues] as it was. *)
Theorem missing_confidence_asymmetry (nts : Q -> string) :
  (forall t before after w,
      isDisfluency w = false -> confidence w = None ->
      let without := before ++ after in
      let with_w := before ++ w :: after in
      pronunciationIssues (analyzeTranscript nts (setWords t with_w))
      = pronunciationIssues (analyzeTranscript nts (setWords t without))
      /\ (sumConfidence (filter isSpoken with_w)
          == sumConfidence (filter isSpoken without))%Q
      /\ List.length (filter isSpoken with_w)
         = S (List.length (filter isSpoken without)))%list
  /\ (exists t ws w,
        isDisfluency w = false /\ confidence w = None
        /\ (confidenceScore (analyzeTranscript nts (setWords t (ws ++ [w])))
            < confidenceScore (analyzeTranscript nts (setWords t ws)))%Z
        /\ pronunciationIssues (analyzeTranscript nts (setWords t (ws ++ [w])))
           = pronunciationIssues (analyzeTranscript nts (setWords t ws)))%list.
Proof.
  split.
  - intros t before after w Hd Hc without with_w. split; [|split].
    + unfold analyzeTranscript. cbn [pronunciationIssues setWords words orEmpty].
      fold flagged. unfold with_w, without. rewrite filter_insert, filter_app.
      unfold flagged at 2. rewrite Hc. reflexivity.
    + rewrite !sumConfidence_sum. unfold with_w, without.
      rewrite filter_insert, filter_app. unfold isSpoken at 2. rewrite Hd.
      cbn [negb]. rewrite !map_app, !sumQ_app. cbn [map sumQ fold_right].
      unfold confidenceValue at 2. rewrite Hc. lra.
    + unfold with_w, without. rewrite filter_insert, filter_app.
      unfold isSpoken at 2. rewrite Hd. cbn [negb].
      rewrite !length_app. simpl. lia.
  - exists {| status := "completed"; error := ""; transcript_text := "clear";
              words := None; audio_duration := Some 60%Q; utterances := None;
              auto_highlights_result := None |}.
    exists [{| text := "clear"; start := Some 0%Q; end_ := Some 1%Q;
               confidence := Some 0.9%Q; type := None |}].
    exists {| text := "speech"; start := Some 1%Q; end_ := Some 2%Q;
              confidence := None; type := None |}.
    repeat split.
Qed.

(** ** Feedback *)

(** C2, amended.  The first rule of [generateFeedback] pushes, before
    everything the later rules push: the praise and no recommendation when
    the filler rate is strictly below 2; the mild caution and exactly one
    recommendation when it is at least 2 and strictly below 5; the warning
    and exactly two recommendations when it is 5 or more.  The later rules
    do not read the filler rate. *)
Theorem fillerRate_bands (nts : Q -> string) (m : Metrics.t) :
  let rate := Metrics.fillerRate m in
  let later := laterRules m in
  ((rate < 2)%Q ->
   generateFeedback nts m
   = (fillerPraise :: feedbackOf later, recommendationsOf later))
  /\ ((2 <= rate)%Q -> (rate < 5)%Q ->
      generateFeedback nts m
      = (fillerCaution :: feedbackOf later,
         pausingAdvice :: recommendationsOf later))
  /\ ((5 <= rate)%Q ->
      generateFeedback nts m
      = (fillerWarning (nts rate) :: feedbackOf later,
         recordingAdvice :: slowingAdvice :: recommendationsOf later))
  /\ (forall n r r' p s c d f k i,
        laterRules (Metrics.Build_t n r p s c d f k i)
        = laterRules (Metrics.Build_t n r' p s c d f k i)).
Proof.
  intros rate later. unfold generateFeedback, fillerRateRule. fold rate. fold later.
  split; [|split; [|split]].
  - intros H. apply Qltb_lt in H. rewrite H. reflexivity.
  - intros H2 H5. apply Qltb_ge in H2. apply Qltb_lt in H5.
    rewrite H2, H5. reflexivity.
  - intros H5. assert (H2 : (2 <= rate)%Q) by lra.
    apply Qltb_ge in H2, H5. rewrite H2, H5. reflexivity.
  - reflexivity.
Qed.

(** ** The poll loop *)

Lemma terminal_false (s : string) :
  terminal s = false -> String.eqb s "completed" = false /\ String.eqb s "error" = false.
Proof. unfold terminal. apply orb_false_iff. Qed.

Lemma stillRunning_next (srv : Service) (id : option string) (k n : nat) :
  stillRunning srv id k (S n) -> stillRunning srv id (S k) n.
Proof.
  intros H i Hi. destruct (H (S i)) as (d & Hd & Hs); [lia|].
  exists d. split; [|exact Hs]. now replace (S k + i) with (k + S i) by lia.
Qed.

(** While the job is not finished every turn polls once and sleeps once. *)
Lemma pollLoop_skip (srv : Service) (id : option string) (n : nat) :
  forall k log fuel,
    stillRunning srv id k n ->
    pollLoop (n + fuel) srv id k log
    = pollLoop fuel srv id (k + n)
        (log ++ List.concat (repeat [Poll id; Sleep 2000] n))%list.
Proof.
  induction n as [|n IH]; intros k log fuel Hrun.
  - simpl. now rewrite Nat.add_0_r, app_nil_r.
  - destruct (Hrun 0) as (d & Hd & Hs); [lia|].
    rewrite Nat.add_0_r in Hd. apply terminal_false in Hs. destruct Hs as [Hc He].
    cbn [Nat.add pollLoop]. unfold bind, await, emit. rewrite Hd, Hc, He.
    rewrite (IH (S k)) by now apply stillRunning_next.
    replace (S k + n) with (k + S n) by lia.
    cbn [repeat List.concat]. now rewrite <- !app_assoc.
Qed.

Lemma pollLoop_answer (srv : Service) (id : option string) (fuel k : nat)
    (log : list Event) (d : Transcript) :
  fetch srv id k = inr d ->
  pollLoop (S fuel) srv id k log
  = if String.eqb (status d) "completed" then (Ret d, (log ++ [Poll id])%list)
    else if String.eqb (status d) "error"
         then (Throw (JsError (error d)), (log ++ [Poll id])%list)
         else pollLoop fuel srv id (S k) ((log ++ [Poll id]) ++ [Sleep 2000])%list.
Proof.
  intros Hd. cbn [pollLoop]. unfold bind, await, emit, ret, throw. rewrite Hd.
  destruct (String.eqb (status d) "completed"); [reflexivity|].
  destruct (String.eqb (status d) "error"); reflexivity.
Qed.




(** ** The entry point *)

Lemma pollLoop_returns (fuel : nat) (srv : Service) (id : option string) :
  forall k log d log',
    pollLoop fuel srv id k log = (Ret d, log') ->
    status d = "completed" /\ exists n, fetch srv id n = inr d.
Proof.
  induction fuel as [|fuel IH]; intros k log d log' H.
  - discriminate.
  - cbn [pollLoop] in H. unfold bind, await in H.
    destruct (fetch srv id k) as [e|d0] eqn:Hf; [discriminate|].
    destruct (String.eqb (status d0) "completed") eqn:Hc.
    + injection H as <- _. split; [now apply String.eqb_eq|now exists k].
    + destruct (String.eqb (status d0) "error"); [discriminate|].
      unfold emit in H. now apply IH in H.
Qed.

(** C1, amended.  [analyzeAudio] lets no exception reach its caller.  When
    a step of its body throws (a failed call, or a poll with status
    [error]), it logs the error and returns [null]; it returns [null] in no
    other case.  A result other than [null] is the complete result built
    from a transcript that a poll returned with status [completed].  With
    enough fuel for the polls, a job that completes gives this result and
    a job that fails gives [null]. *)
Theorem analyzeAudio_result_or_null (nts : Q -> string) (fuel : nat)
    (srv : Service) (uri : string) :
  let outcome := analyzeAudio nts fuel srv uri [] in
  (forall e, fst outcome <> Throw e)
  /\ (forall e log,
        analyzeAudioBody nts fuel srv uri [] = (Throw e, log) ->
        outcome = (Ret None, (log ++ [ConsoleError e])%list))
  /\ (forall res log,
        outcome = (Ret (Some res), log) ->
        exists id d n,
          fetch srv id n = inr d /\ status d = "completed"
          /\ res = buildResult nts d)
  /\ (forall log,
        outcome = (Ret None, log) ->
        exists e log', analyzeAudioBody nts fuel srv uri [] = (Throw e, log'))
  /\ (forall audioUrl id n d,
        upload srv uri = inr audioUrl -> submit srv audioUrl = inr id ->
        stillRunning srv id 0 n -> fetch srv id n = inr d -> n < fuel ->
        (status d = "completed" ->
         outcome = (Ret (Some (buildResult nts d)),
                    [Upload uri; Submit audioUrl] ++ pollTrace id n))
        /\ (status d = "error" ->
            outcome = (Ret None,
                       [Upload uri; Submit audioUrl] ++ pollTrace id n
                       ++ [ConsoleError (JsError (error d))])))%list.
Proof.
  intros outcome. unfold outcome, analyzeAudio, tryCatch.
  split; [|split; [|split; [|split]]].
  - intros e. destruct (analyzeAudioBody nts fuel srv uri []) as [[r|e'|] log];
      unfold bind, emit, ret; simpl; discriminate.
  - intros e log H. rewrite H. reflexivity.
  - intros res log.
    destruct (analyzeAudioBody nts fuel srv uri []) as [[r|e'|] log0] eqn:Hb;
      unfold bind, emit, ret; simpl; try discriminate.
    intros H. injection H as -> _.
    unfold analyzeAudioBody, bind, await, ret in Hb.
    destruct (upload srv uri) as [e|audioUrl]; [discriminate|].
    destruct (submit srv audioUrl) as [e|id]; [discriminate|].
    destruct (pollLoop fuel srv id 0 _) as [[d|e|] log1] eqn:Hp; try discriminate.
    injection Hb as <- _. apply pollLoop_returns in Hp. destruct Hp as [Hs [n Hn]].
    now exists id, d, n.
  - intros log.
    destruct (analyzeAudioBody nts fuel srv uri []) as [[r|e'|] log0] eqn:Hb;
      unfold bind, emit, ret; simpl; try discriminate.
    + intros H. injection H as -> _.
      unfold analyzeAudioBody, bind, await, ret in Hb.
      destruct (upload srv uri) as [e|audioUrl]; [discriminate|].
      destruct (submit srv audioUrl) as [e|id]; [discriminate|].
      destruct (pollLoop fuel srv id 0 _) as [[d|e|] log1]; discriminate.
    + intros _. now exists e', log0.
  - intros audioUrl id n d Hu Hs Hrun Hf Hfuel.
    unfold analyzeAudioBody. unfold bind at 1 2 3 5 6 7, await.
    rewrite Hu, Hs. cbn [app].
    replace fuel with (n + S (fuel - S n)) by lia.
    rewrite (pollLoop_skip srv id n 0 _ _ Hrun).
    rewrite (pollLoop_answer srv id _ _ _ d Hf).
    split; intros He; rewrite He; cbn; unfold pollTrace;
      now rewrite <- ?app_assoc.
Qed.

(** ** Instances and counterexamples *)

(** Fillers um, uh, um: the tie rule applies, no text being an array index. *)
Lemma mostUsedFillers_top10_witness :
  exists ranked,
    mostUsedFillers (analyzeTranscript sampleRendering twoFillers) = firstn 10 ranked
    /\ forall c,
        filter (hasCount c) ranked
        = filter (hasCount c) [{| word := "um"; count := JS.Num 2 |};
                               {| word := "uh"; count := JS.Num 1 |}].
Proof.
  destruct (mostUsedFillers_top10 sampleRendering twoFillers)
    as (ranked & Htop & _ & _ & _ & Hties).
  - intros k Hk. simpl in Hk. destruct Hk as [<-|[<-|[<-|[]]]]; reflexivity.
  - exists ranked. split; [exact Htop|].
    apply Hties. intros k Hk. simpl in Hk.
    destruct Hk as [<-|[<-|[<-|[]]]]; reflexivity.
Defined.

(** Two fillers transcribed as 2 and then 1, once each: the table lists 1
    before 2, against the order in which they were first seen. *)
Lemma mostUsedFillers_index_texts_first :
  JS.unique (fillerTexts (orEmpty (words numericFillers))) = ["2"; "1"]
  /\ mostUsedFillers (analyzeTranscript sampleRendering numericFillers)
     = [{| word := "1"; count := JS.Num 1 |}; {| word := "2"; count := JS.Num 1 |}].
Proof. split; reflexivity. Qed.



(** A one-minute transcript, and a transcript without words or duration. *)
Lemma degenerate_metrics_witness :
  (0 <= fillerRate (analyzeTranscript sampleRendering twoFillers))%Q
  /\ (fillerRate (analyzeTranscript sampleRendering (completed [] None)) == 0)%Q
  /\ repeatedWords (buildResult sampleRendering (completed [] None)) = [].
Proof.
  split; [|split].
  - apply (proj1 (degenerate_metrics sampleRendering twoFillers)). discriminate.
  - apply (proj2 (degenerate_metrics sampleRendering (completed [] None))). reflexivity.
  - apply (proj2 (degenerate_metrics sampleRendering (completed [] None))). reflexivity.
Defined.



(** Adding a word without confidence after a word of confidence 0.9. *)
Lemma missing_confidence_asymmetry_witness :
  pronunciationIssues
    (analyzeTranscript sampleRendering
       (setWords mixedConfidence (orEmpty (words mixedConfidence) ++ [silentWord])))
  = pronunciationIssues (analyzeTranscript sampleRendering mixedConfidence)
  /\ (confidenceScore
        (analyzeTranscript sampleRendering
           (setWords mixedConfidence (orEmpty (words mixedConfidence) ++ [silentWord])))
      = 45)%Z.
Proof.
  split; [|reflexivity].
  apply (proj1 (proj1 (missing_confidence_asymmetry sampleRendering)
                  mixedConfidence (orEmpty (words mixedConfidence)) [] silentWord
                  eq_refl eq_refl)).
Defined.

(** Filler rates of 1, 3 and 6 per minute. *)
Lemma fillerRate_bands_witness :
  fst (generateFeedback sampleRendering (metricsAtRate 1))
  = [fillerPraise;
     "✅ Your speaking pace is in a good range for clear communication.";
     "⏭️ Good flow with appropriate pausing.";
     "🎤 Clear articulation detected - your speech is easy to understand."]
  /\ hd "" (snd (generateFeedback sampleRendering (metricsAtRate 3))) = pausingAdvice
  /\ hd "" (fst (generateFeedback sampleRendering (metricsAtRate 6))) = fillerWarning "5".
Proof.
  split; [|split].
  - rewrite (proj1 (fillerRate_bands sampleRendering (metricsAtRate 1))); reflexivity.
  - rewrite (proj1 (proj2 (fillerRate_bands sampleRendering (metricsAtRate 3))));
      [reflexivity|discriminate|reflexivity].
  - rewrite (proj1 (proj2 (proj2 (fillerRate_bands sampleRendering (metricsAtRate 6)))));
      [reflexivity|discriminate].
Defined.

(** A filler rate of exactly 5 per minute lies in the range 2 to 5 and gets
    the warning with its two recommendations, not the mild caution. *)
Lemma fillerRate_five_is_warned :
  (2 <= Metrics.fillerRate (metricsAtRate 5) <= 5)%Q
  /\ generateFeedback sampleRendering (metricsAtRate 5)
     = (fillerWarning "5" :: feedbackOf (laterRules (metricsAtRate 5)),
        recordingAdvice :: slowingAdvice
          :: recommendationsOf (laterRules (metricsAtRate 5))).
Proof. repeat split; discriminate. Qed.


(** The same two jobs, seen from the entry point. *)
Lemma analyzeAudio_result_or_null_witness :
  analyzeAudio sampleRendering 10 failingService "file:///answer.m4a" []
  = (Ret None,
     [Upload "file:///answer.m4a"; Submit (Some "https://cdn.example/upload/2");
      Poll (Some "job-2"); ConsoleError (JsError "audio could not be decoded")])
  /\ fst (analyzeAudio sampleRendering 10 slowService "file:///answer.m4a" [])
     = Ret (Some (buildResult sampleRendering (answering "completed"))).
Proof.
  split.
  - apply (proj2 (proj2 (proj2 (proj2
             (analyzeAudio_result_or_null sampleRendering 10 failingService
                "file:///answer.m4a")))) _ _ 0 (answering "error"));
      try reflexivity; [|lia]. intros i Hi. lia.
  - rewrite (proj1 (proj2 (proj2 (proj2 (proj2
             (analyzeAudio_result_or_null sampleRendering 10 slowService
                "file:///answer.m4a")))) _ _ 2 (answering "completed")
             eq_refl eq_refl
             ltac:(intros i Hi; destruct i as [|[|i]];
                   [exists (answering "processing"); split; reflexivity
                   |exists (answering "processing"); split; reflexivity|lia])
             eq_refl ltac:(lia)) eq_refl).
    reflexivity.
Defined.

(** A job whose first poll has status error: the caller receives [null],
    not a failure that names what happened. *)
Lemma analyzeAudio_swallows_job_error :
  fetch failingService (Some "job-2") 0 = inr (answering "error")
  /\ status (answering "error") = "error"
  /\ fst (analyzeAudio sampleRendering 10 failingService "file:///answer.m4a" [])
     = Ret None.
Proof. repeat split. Qed.

(** ** The fixed vocabulary of fillers *)

Lemma tabulate_get (f : string -> nat) (ks : list string) (k : string) :
  In k ks -> JS.get (tabulate f ks) k = Some (f k).
Proof.
  induction ks as [|k0 ks IH]; simpl; [tauto|].
  destruct (String.eqb_spec k k0) as [->|Hne]; [reflexivity|].
  intros [H|H]; [congruence|now apply IH].
Qed.

Lemma tabulate_ext (f g : string -> nat) (ks : list string) :
  (forall k, In k ks -> f k = g k) -> tabulate f ks = tabulate g ks.
Proof.
  intros H. apply map_ext_in. intros k Hk. now rewrite H.
Qed.

Lemma tabulate_set (f : string -> nat) (ks : list string) (k : string) (v : nat) :
  NoDup ks -> In k ks ->
  JS.set (tabulate f ks) k v
  = tabulate (fun x => if String.eqb x k then v else f x) ks.
Proof.
  induction ks as [|k0 ks IH]; simpl; [tauto|].
  intros Hd Hin. inversion Hd as [|? ? Hk0 Hd']; subst.
  destruct (String.eqb_spec k k0) as [->|Hne].
  - rewrite String.eqb_refl. f_equal.
    apply tabulate_ext. intros x Hx.
    destruct (String.eqb_spec x k0) as [->|]; [contradiction|reflexivity].
  - destruct (String.eqb_spec k0 k) as [E|_]; [congruence|].
    f_equal. apply IH; [assumption|]. destruct Hin; [congruence|assumption].
Qed.

Lemma COMMON_FILLERS_NoDup : NoDup COMMON_FILLERS.
Proof.
  unfold COMMON_FILLERS.
  repeat (constructor; [simpl; intuition discriminate|]). constructor.
Qed.

Lemma commonFillers_fold (ws : list Word) (f : string -> nat) :
  fold_left
    (fun o w =>
       let t := JS.toLowerCase (text w) in
       if JS.includes COMMON_FILLERS t then increment o t else o)
    ws (tabulate f COMMON_FILLERS)
  = tabulate (fun k => f k + timesSaid ws k) COMMON_FILLERS.
Proof.
  revert f. induction ws as [|w ws IH]; intros f; cbn [fold_left].
  - apply tabulate_ext. intros k _. unfold timesSaid. simpl. lia.
  - cbv zeta. destruct (JS.includes COMMON_FILLERS (JS.toLowerCase (text w))) eqn:E.
    + apply includes_In in E. unfold increment.
      rewrite (tabulate_get f _ _ E),
        (tabulate_set f _ _ _ COMMON_FILLERS_NoDup E), IH.
      apply tabulate_ext. intros k _. unfold timesSaid. cbn [map count_occ].
      destruct (String.eqb_spec k (JS.toLowerCase (text w))) as [->|Hne].
      * destruct (string_dec _ _); [lia|congruence].
      * destruct (string_dec _ _); [congruence|lia].
    + rewrite IH. apply tabulate_ext. intros k Hk. unfold timesSaid.
      cbn [map count_occ].
      destruct (string_dec (JS.toLowerCase (text w)) k) as [<-|]; [|reflexivity].
      apply includes_In in Hk. congruence.
Qed.

Lemma Qle_bool_false (a b : Q) : Qle_bool a b = false <-> (b < a)%Q.
Proof.
  split.
  - intros H. apply Qnot_le_lt. intros Hle. apply Qle_bool_iff in Hle. congruence.
  - intros H. destruct (Qle_bool a b) eqn:E; [|reflexivity].
    apply Qle_bool_iff in E. exfalso. now apply (Qlt_not_le b a).
Qed.

Lemma countCommonFillers_table (ws : list Word) :
  countCommonFillers ws = tabulate (timesSaid ws) COMMON_FILLERS.
Proof.
  unfold countCommonFillers.
  change (fold_left (fun o filler => JS.set o filler 0) COMMON_FILLERS [])
    with (tabulate (fun _ => 0) COMMON_FILLERS).
  now rewrite commonFillers_fold.
Qed.

(** X1.  [commonFillerCounts] lists the six fixed fillers in the order of
    [COMMON_FILLERS], each with the number of words of the transcript,
    tagged as disfluency or not, whose lower-cased text is that filler. *)
Theorem commonFillerCounts_exact (nts : Q -> string) (t : Transcript) :
  commonFillerCounts (analyzeTranscript nts t)
  = tabulate (timesSaid (orEmpty (words t))) COMMON_FILLERS.
Proof.
  unfold analyzeTranscript. cbn [commonFillerCounts].
  apply countCommonFillers_table.
Qed.

(** ** Pronunciation issues *)

(** X2.  A pronunciation issue is reported for exactly the words that are
    not tagged as disfluency and carry a confidence strictly below 0.6: it
    holds the text of the word as transcribed and that confidence.  Hence
    no issue is without a confidence, none has a confidence of 0.6 or
    more, and there are as many issues as such words. *)
Theorem pronunciationIssues_exact (nts : Q -> string) (t : Transcript) :
  let ws := orEmpty (words t) in
  let issues := pronunciationIssues (analyzeTranscript nts t) in
  (forall i,
      In i issues <->
      exists w c,
        In w ws /\ isDisfluency w = false /\ confidence w = Some c
        /\ (c < 0.6)%Q
        /\ i = {| issue_word := text w; issue_confidence := Some c |})
  /\ (forall i, In i issues ->
        exists c, issue_confidence i = Some c /\ (c < 0.6)%Q)
  /\ List.length issues = List.length (filter flagged ws).
Proof.
  intros ws issues.
  assert (Hi : issues
               = map (fun w => {| issue_word := text w;
                                  issue_confidence := confidence w |})
                     (filter flagged ws)) by reflexivity.
  assert (Hf : forall w, flagged w = true <->
                 isDisfluency w = false
                 /\ exists c, confidence w = Some c /\ (c < 0.6)%Q).
  { intros w. unfold flagged. rewrite andb_true_iff, negb_true_iff, Qltb_lt.
    unfold JS.nullish. destruct (confidence w) as [c|].
    - split.
      + intros [Hc Hd]. split; [exact Hd|]. now exists c.
      + intros [Hd (c' & Hc' & Hlt)]. injection Hc' as <-. now split.
    - split.
      + intros [Hc _]. exfalso. revert Hc. apply Qle_not_lt. discriminate.
      + intros [_ (c' & Hc' & _)]. discriminate. }
  assert (H1 : forall i,
      In i issues <->
      exists w c,
        In w ws /\ isDisfluency w = false /\ confidence w = Some c
        /\ (c < 0.6)%Q
        /\ i = {| issue_word := text w; issue_confidence := Some c |}).
  { intros i. rewrite Hi, in_map_iff. split.
    - intros (w & <- & Hw). apply filter_In in Hw. destruct Hw as [Hin Hw].
      apply Hf in Hw. destruct Hw as [Hd (c & Hc & Hlt)].
      exists w, c. rewrite Hc. repeat split; assumption.
    - intros (w & c & Hin & Hd & Hc & Hlt & ->). exists w.
      rewrite Hc. split; [reflexivity|]. apply filter_In. split; [exact Hin|].
      apply Hf. split; [exact Hd|]. now exists c. }
  split; [exact H1|]. split.
  - intros i Hin. apply H1 in Hin.
    destruct Hin as (w & c & _ & _ & _ & Hlt & ->). now exists c.
  - rewrite Hi. apply length_map.
Qed.

(** ** Totals of the frequency tables *)

Lemma list_sum_cons (n : nat) (l : list nat) : list_sum (n :: l) = n + list_sum l.
Proof. reflexivity. Qed.

Lemma indicator_sum (x : string) (us : list string) :
  NoDup us ->
  list_sum (map (fun u => if string_dec x u then 1 else 0) us)
  = if JS.includes us x then 1 else 0.
Proof.
  induction us as [|u us IH]; intros Hd; [reflexivity|].
  inversion Hd as [|? ? Hu Hd']; subst.
  rewrite map_cons, list_sum_cons, (IH Hd').
  unfold JS.includes. cbn [existsb].
  destruct (string_dec x u) as [->|Hne].
  - rewrite String.eqb_refl. cbn [orb].
    destruct (existsb (String.eqb u) us) eqn:E; [|reflexivity].
    exfalso. apply Hu. now apply includes_In.
  - destruct (String.eqb_spec x u); [congruence|]. reflexivity.
Qed.

Lemma list_sum_plus {A} (f g : A -> nat) (l : list A) :
  list_sum (map (fun a => f a + g a) l)
  = list_sum (map f l) + list_sum (map g l).
Proof.
  induction l as [|a l IH]; [reflexivity|].
  rewrite !map_cons, !list_sum_cons, IH. lia.
Qed.

Lemma list_sum_zero {A} (l : list A) : list_sum (map (fun _ => 0) l) = 0.
Proof. induction l as [|a l IH]; [reflexivity|]. now rewrite map_cons, list_sum_cons. Qed.

(** The counts of distinct keys add up to the elements that are among the
    keys. *)
Lemma count_sum (l us : list string) :
  NoDup us ->
  list_sum (map (count_occ string_dec l) us)
  = List.length (filter (JS.includes us) l).
Proof.
  intros Hd. induction l as [|x l IH]; cbn [filter].
  - apply (list_sum_zero us).
  - rewrite (map_ext _ (fun u => (if string_dec x u then 1 else 0)
                                 + count_occ string_dec l u)).
    + rewrite list_sum_plus, IH, (indicator_sum x us Hd).
      now destruct (JS.includes us x).
    + intros u. cbn [count_occ]. now destruct (string_dec x u).
Qed.

Lemma filter_all {A} (f : A -> bool) (l : list A) :
  (forall x, In x l -> f x = true) -> filter f l = l.
Proof.
  induction l as [|x l IH]; intros H; [reflexivity|].
  cbn [filter]. rewrite (H x (or_introl eq_refl)), IH; [reflexivity|].
  intros y Hy. apply H. now right.
Qed.

Lemma frequencyTable_sum (ks : list string) :
  list_sum (map snd (frequencyTable ks)) = List.length ks.
Proof.
  unfold frequencyTable. rewrite map_map.
  rewrite (map_ext _ (count_occ string_dec ks)) by reflexivity.
  rewrite (count_sum ks (JS.unique ks) (unique_NoDup ks)).
  rewrite filter_all; [reflexivity|].
  intros x Hx. apply includes_In. now apply unique_In.
Qed.

Lemma sumCounts_numbered (l : list (string * nat)) :
  sumCounts (map numbered l) = list_sum (map snd l).
Proof. unfold sumCounts. rewrite map_map. reflexivity. Qed.

Lemma sumCounts_perm (l l' : list WordCount) :
  Permutation l l' -> sumCounts l = sumCounts l'.
Proof.
  intros H. unfold sumCounts.
  induction H; simpl; try lia.
Qed.

Lemma sumCounts_firstn (n : nat) (l : list WordCount) :
  sumCounts (firstn n l) <= sumCounts l.
Proof.
  revert n. induction l as [|x l IH]; intros [|n]; simpl; try lia.
  - unfold sumCounts. simpl. lia.
  - unfold sumCounts in *. simpl. specialize (IH n). lia.
Qed.

Lemma In_firstn {A} (n : nat) (l : list A) (x : A) :
  In x (firstn n l) -> In x l.
Proof.
  revert n. induction l as [|y l IH]; intros [|n]; simpl; try tauto.
  intros [H|H]; [now left|right; now apply (IH n)].
Qed.

(** X3.  When no filler text is the name of an inherited property, the
    table of most used fillers has at most ten entries, one for each
    distinct filler text up to ten; every count in it is at least 1; the
    counts add up to at most [totalFillers], and to exactly
    [totalFillers] when the transcript has at most ten distinct filler
    texts. *)
Theorem mostUsedFillers_counts (nts : Q -> string) (t : Transcript) :
  let texts := fillerTexts (orEmpty (words t)) in
  let a := analyzeTranscript nts t in
  (forall k, In k texts -> inherited k = false) ->
  List.length (mostUsedFillers a) = Nat.min 10 (List.length (JS.unique texts))
  /\ (forall e, In e (mostUsedFillers a) -> 1 <= countOf e)
  /\ sumCounts (mostUsedFillers a) <= totalFillers a
  /\ (List.length (JS.unique texts) <= 10 ->
      sumCounts (mostUsedFillers a) = totalFillers a).
Proof.
  intros texts a Hplain.
  set (ranked := JS.sort byCountDesc
                   (map numbered (JS.Object_entries (frequencyTable texts)))).
  assert (Htop : mostUsedFillers a = firstn 10 ranked).
  { unfold a, analyzeTranscript. cbn [mostUsedFillers].
    rewrite (countFillers_table _ Hplain), entries_numEntry, toWordCount_numEntry.
    reflexivity. }
  assert (Hperm : Permutation ranked (map numbered (frequencyTable texts))).
  { unfold ranked. rewrite (sort_perm byCountDesc).
    apply Permutation_map, entries_perm. }
  assert (Hlen : List.length ranked = List.length (JS.unique texts)).
  { rewrite (Permutation_length Hperm), length_map.
    unfold frequencyTable. apply length_map. }
  assert (Hsum : sumCounts ranked = totalFillers a).
  { rewrite (sumCounts_perm _ _ Hperm), sumCounts_numbered, frequencyTable_sum.
    unfold texts, fillerTexts. rewrite length_map. reflexivity. }
  split; [|split; [|split]].
  - rewrite Htop, length_firstn, Hlen. reflexivity.
  - intros e He. rewrite Htop in He. apply In_firstn in He.
    apply (Permutation_in _ Hperm) in He. apply in_map_iff in He.
    destruct He as ([k c] & <- & He). apply frequencyTable_In in He.
    destruct He as [Hin ->]. unfold countOf. simpl.
    apply (count_occ_In string_dec) in Hin. lia.
  - rewrite Htop, <- Hsum. apply sumCounts_firstn.
  - intros Hfew. rewrite Htop, firstn_all2 by lia. exact Hsum.
Qed.

(** ** The feedback as a whole *)

Lemma feedback_of_metrics (nts : Q -> string) (t : Transcript) :
  feedback (analyzeTranscript nts t) = fst (generateFeedback nts (metricsOf t))
  /\ recommendations (analyzeTranscript nts t)
     = snd (generateFeedback nts (metricsOf t)).
Proof. split; reflexivity. Qed.

Lemma feedbackOf_app (a b : list Push) :
  feedbackOf (a ++ b) = (feedbackOf a ++ feedbackOf b)%list.
Proof. apply flat_map_app. Qed.

Lemma recommendationsOf_app (a b : list Push) :
  recommendationsOf (a ++ b)
  = (recommendationsOf a ++ recommendationsOf b)%list.
Proof. apply flat_map_app. Qed.

Lemma feedback_rules (nts : Q -> string) (m : Metrics.t) :
  fst (generateFeedback nts m)
  = (feedbackOf (fillerRateRule nts m) ++ feedbackOf (topFillerRule m)
     ++ feedbackOf (commonFillersRule m) ++ feedbackOf (paceRule m)
     ++ feedbackOf (pauseRule m) ++ feedbackOf (confidenceRule m)
     ++ feedbackOf (pronunciationRule m) ++ feedbackOf closingRule)%list.
Proof.
  unfold generateFeedback, laterRules. cbn [fst].
  now rewrite !feedbackOf_app.
Qed.

Lemma recommendation_rules (nts : Q -> string) (m : Metrics.t) :
  snd (generateFeedback nts m)
  = (recommendationsOf (fillerRateRule nts m) ++ recommendationsOf (topFillerRule m)
     ++ recommendationsOf (commonFillersRule m) ++ recommendationsOf (paceRule m)
     ++ recommendationsOf (pauseRule m) ++ recommendationsOf (confidenceRule m)
     ++ recommendationsOf (pronunciationRule m)
     ++ recommendationsOf closingRule)%list.
Proof.
  unfold generateFeedback, laterRules. cbn [snd].
  now rewrite !recommendationsOf_app.
Qed.

(** Case analysis on the tests of one rule. *)
Ltac rule_cases :=
  repeat match goal with
         | |- context [if ?c then _ else _] => destruct c eqn:?
         | |- context [match ?x with Some _ => _ | None => _ end] => destruct x eqn:?
         | |- context [match ?x with [] => _ | _ :: _ => _ end] => destruct x eqn:?
         end.

Lemma fillerRateRule_sizes (nts : Q -> string) (m : Metrics.t) :
  List.length (feedbackOf (fillerRateRule nts m)) = 1
  /\ List.length (recommendationsOf (fillerRateRule nts m)) <= 2.
Proof. unfold fillerRateRule. rule_cases; simpl; lia. Qed.

Lemma topFillerRule_sizes (m : Metrics.t) :
  List.length (feedbackOf (topFillerRule m)) <= 1
  /\ List.length (recommendationsOf (topFillerRule m)) <= 1.
Proof. unfold topFillerRule. rule_cases; simpl; lia. Qed.

Lemma commonFillersRule_sizes (m : Metrics.t) :
  List.length (feedbackOf (commonFillersRule m)) <= 1
  /\ List.length (recommendationsOf (commonFillersRule m)) <= 1.
Proof. unfold commonFillersRule. rule_cases; simpl; lia. Qed.

Lemma paceRule_sizes (m : Metrics.t) :
  List.length (feedbackOf (paceRule m)) = 1
  /\ List.length (recommendationsOf (paceRule m)) <= 1.
Proof. unfold paceRule. rule_cases; simpl; lia. Qed.

Lemma pauseRule_sizes (m : Metrics.t) :
  List.length (feedbackOf (pauseRule m)) = 1
  /\ List.length (recommendationsOf (pauseRule m)) <= 2.
Proof. unfold pauseRule. rule_cases; simpl; lia. Qed.

Lemma confidenceRule_sizes (m : Metrics.t) :
  List.length (feedbackOf (confidenceRule m)) = 1
  /\ List.length (recommendationsOf (confidenceRule m)) <= 1.
Proof. unfold confidenceRule. rule_cases; simpl; lia. Qed.

Lemma pronunciationRule_sizes (m : Metrics.t) :
  List.length (feedbackOf (pronunciationRule m)) <= 1
  /\ List.length (recommendationsOf (pronunciationRule m)) <= 2.
Proof. unfold pronunciationRule. rule_cases; simpl; lia. Qed.

(** X6.  Whatever the metrics, [generateFeedback] returns between four and
    seven feedback messages and between two and twelve recommendations,
    and the recommendations end with the two general ones, to record
    oneself and to practise before a mirror or friends. *)
Theorem feedback_shape (nts : Q -> string) (m : Metrics.t) :
  let out := generateFeedback nts m in
  4 <= List.length (fst out) <= 7
  /\ 2 <= List.length (snd out) <= 12
  /\ exists front, snd out = (front ++ [trackAdvice; mirrorAdvice])%list.
Proof.
  intros out. unfold out. rewrite feedback_rules, recommendation_rules.
  rewrite !length_app.
  pose proof (fillerRateRule_sizes nts m). pose proof (topFillerRule_sizes m).
  pose proof (commonFillersRule_sizes m). pose proof (paceRule_sizes m).
  pose proof (pauseRule_sizes m). pose proof (confidenceRule_sizes m).
  pose proof (pronunciationRule_sizes m).
  change (List.length (feedbackOf closingRule)) with 0.
  change (List.length (recommendationsOf closingRule)) with 2.
  split; [lia|]. split; [lia|].
  exists (recommendationsOf (fillerRateRule nts m) ++ recommendationsOf (topFillerRule m)
          ++ recommendationsOf (commonFillersRule m) ++ recommendationsOf (paceRule m)
          ++ recommendationsOf (pauseRule m) ++ recommendationsOf (confidenceRule m)
          ++ recommendationsOf (pronunciationRule m))%list.
  now rewrite <- !app_assoc.
Qed.

(** Which rule a message can come from. *)
Ltac not_from_rule :=
  unfold fillerRateRule, topFillerRule, commonFillersRule, paceRule, pauseRule,
    confidenceRule, pronunciationRule, closingRule;
  rule_cases; cbn [feedbackOf recommendationsOf flat_map app];
  cbv [paceSlow paceFast paceGood paceSlowAdvice paceFastAdvice pauseNote
       pauseNone prepareAdvice rehearseAdvice articulationClear
       articulationFair articulationPoor speakClearlyAdvice exercisesAdvice
       commonAdvice articulationAdvice compareAdvice
       fillerPraise fillerCaution fillerWarning];
  simpl; intuition discriminate.

Ltac each_of H := simpl in H; decompose [or] H; subst; try tauto.

Ltac exclude Hs s part rule :=
  try (assert (~ In s (part rule)) by (each_of Hs; not_from_rule)).

(** A message of the list [Hs] speaks of is pushed by one rule only. *)
Ltac single_source Hs s nts m :=
  rewrite ?feedback_rules, ?recommendation_rules, !in_app_iff;
  exclude Hs s feedbackOf (fillerRateRule nts m);
  exclude Hs s feedbackOf (topFillerRule m);
  exclude Hs s feedbackOf (commonFillersRule m);
  exclude Hs s feedbackOf (paceRule m);
  exclude Hs s feedbackOf (pauseRule m);
  exclude Hs s feedbackOf (confidenceRule m);
  exclude Hs s feedbackOf (pronunciationRule m);
  exclude Hs s feedbackOf closingRule;
  exclude Hs s recommendationsOf (fillerRateRule nts m);
  exclude Hs s recommendationsOf (topFillerRule m);
  exclude Hs s recommendationsOf (commonFillersRule m);
  exclude Hs s recommendationsOf (paceRule m);
  exclude Hs s recommendationsOf (pauseRule m);
  exclude Hs s recommendationsOf (confidenceRule m);
  exclude Hs s recommendationsOf (pronunciationRule m);
  exclude Hs s recommendationsOf closingRule;
  tauto.

Lemma pace_feedback_source (nts : Q -> string) (m : Metrics.t) (s : string) :
  In s [paceSlow; paceFast; paceGood] ->
  (In s (fst (generateFeedback nts m)) <-> In s (feedbackOf (paceRule m))).
Proof. intros Hs. single_source Hs s nts m. Qed.

Lemma pace_advice_source (nts : Q -> string) (m : Metrics.t) (s : string) :
  In s [paceSlowAdvice; paceFastAdvice] ->
  (In s (snd (generateFeedback nts m)) <-> In s (recommendationsOf (paceRule m))).
Proof. intros Hs. single_source Hs s nts m. Qed.

Lemma pause_feedback_source (nts : Q -> string) (m : Metrics.t) (s : string) :
  In s [pauseNone; pauseNote (List.length (Metrics.longPauses m))] ->
  (In s (fst (generateFeedback nts m)) <-> In s (feedbackOf (pauseRule m))).
Proof. intros Hs. single_source Hs s nts m. Qed.

Lemma pause_advice_source (nts : Q -> string) (m : Metrics.t) (s : string) :
  In s [prepareAdvice; rehearseAdvice] ->
  (In s (snd (generateFeedback nts m)) <-> In s (recommendationsOf (pauseRule m))).
Proof. intros Hs. single_source Hs s nts m. Qed.

Lemma confidence_feedback_source (nts : Q -> string) (m : Metrics.t) (s : string) :
  In s [articulationClear; articulationFair; articulationPoor] ->
  (In s (fst (generateFeedback nts m)) <-> In s (feedbackOf (confidenceRule m))).
Proof. intros Hs. single_source Hs s nts m. Qed.

Lemma confidence_advice_source (nts : Q -> string) (m : Metrics.t) (s : string) :
  In s [speakClearlyAdvice; exercisesAdvice] ->
  (In s (snd (generateFeedback nts m))
   <-> In s (recommendationsOf (confidenceRule m))).
Proof. intros Hs. single_source Hs s nts m. Qed.

Lemma paceRule_cases (m : Metrics.t) :
  let pace := Metrics.speakingPace m in
  ((pace < 120)%Q
   /\ feedbackOf (paceRule m) = [paceSlow]
   /\ recommendationsOf (paceRule m) = [paceSlowAdvice])
  \/ ((200 < pace)%Q
      /\ feedbackOf (paceRule m) = [paceFast]
      /\ recommendationsOf (paceRule m) = [paceFastAdvice])
  \/ ((120 <= pace <= 200)%Q
      /\ feedbackOf (paceRule m) = [paceGood]
      /\ recommendationsOf (paceRule m) = []).
Proof.
  intros pace. unfold paceRule. fold pace.
  destruct (JS.Qltb pace 120) eqn:E1.
  - left. apply Qltb_lt in E1. now repeat split.
  - apply Qltb_ge in E1. destruct (JS.Qltb 200 pace) eqn:E2.
    + right. left. apply Qltb_lt in E2. now repeat split.
    + right. right. apply Qltb_ge in E2. now repeat split.
Qed.

(** X7.  In the feedback of [generateFeedback] the pace is called slow
    exactly when the speaking pace is strictly below 120 words per minute,
    fast exactly when it is strictly above 200, and good exactly when it is
    from 120 to 200; the advice that goes with slow and with fast is among
    the recommendations in exactly the same cases. *)
Theorem pace_verdict (nts : Q -> string) (m : Metrics.t) :
  let pace := Metrics.speakingPace m in
  let fb := fst (generateFeedback nts m) in
  let rc := snd (generateFeedback nts m) in
  (In paceSlow fb <-> (pace < 120)%Q)
  /\ (In paceFast fb <-> (200 < pace)%Q)
  /\ (In paceGood fb <-> (120 <= pace <= 200)%Q)
  /\ (In paceSlowAdvice rc <-> (pace < 120)%Q)
  /\ (In paceFastAdvice rc <-> (200 < pace)%Q).
Proof.
  intros pace fb rc. unfold fb, rc.
  rewrite (pace_feedback_source nts m paceSlow) by (simpl; tauto).
  rewrite (pace_feedback_source nts m paceFast) by (simpl; tauto).
  rewrite (pace_feedback_source nts m paceGood) by (simpl; tauto).
  rewrite (pace_advice_source nts m paceSlowAdvice) by (simpl; tauto).
  rewrite (pace_advice_source nts m paceFastAdvice) by (simpl; tauto).
  assert (D1 : paceSlow <> paceFast) by discriminate.
  assert (D2 : paceSlow <> paceGood) by discriminate.
  assert (D3 : paceFast <> paceGood) by discriminate.
  assert (D4 : paceSlowAdvice <> paceFastAdvice) by discriminate.
  destruct (paceRule_cases m) as [(Hp & -> & ->)|[(Hp & -> & ->)|(Hp & -> & ->)]];
    fold pace in Hp; cbn [In]; repeat split; intros;
    try lra; try tauto;
    repeat match goal with
           | H : _ \/ _ |- _ => destruct H
           | H : False |- _ => destruct H
           end; try congruence; try lra.
Qed.

Ltac settle :=
  repeat match goal with
         | H : _ \/ _ |- _ => destruct H
         | H : _ /\ _ |- _ => destruct H
         | H : False |- _ => destruct H
         end;
  try congruence; try lia; try lra; try tauto.

(** X8.  The feedback of [generateFeedback] praises the flow exactly when
    there is no long pause, and otherwise carries the note that gives
    their number.  The two recommendations to prepare and to rehearse are
    made exactly when there is a long pause and the pauses are more than
    twice the minutes of the recording; they come both or not at all. *)
Theorem pause_verdict (nts : Q -> string) (m : Metrics.t) :
  let n := List.length (Metrics.longPauses m) in
  let minutes := Metrics.totalDurationMinutes m in
  let fb := fst (generateFeedback nts m) in
  let rc := snd (generateFeedback nts m) in
  (In pauseNone fb <-> n = 0)
  /\ (In (pauseNote n) fb <-> 0 < n)
  /\ (In prepareAdvice rc <-> 0 < n /\ (minutes * 2 < ofNat n)%Q)
  /\ (In rehearseAdvice rc <-> In prepareAdvice rc).
Proof.
  intros n minutes fb rc. unfold fb, rc.
  rewrite (pause_feedback_source nts m pauseNone) by (simpl; tauto).
  rewrite (pause_feedback_source nts m (pauseNote n)) by (simpl; tauto).
  rewrite (pause_advice_source nts m prepareAdvice) by (simpl; tauto).
  rewrite (pause_advice_source nts m rehearseAdvice) by (simpl; tauto).
  assert (D1 : pauseNone <> pauseNote n) by discriminate.
  assert (D2 : prepareAdvice <> rehearseAdvice) by discriminate.
  unfold pauseRule. fold n. fold minutes. fold (pauseNote n).
  destruct (Nat.ltb_spec 0 n) as [Hn|Hn].
  - destruct (JS.Qltb (minutes * 2) (ofNat n)) eqn:E.
    + apply Qltb_lt in E.
      change (In ?s (feedbackOf (Feedback (pauseNote n) :: ?l)))
        with (pauseNote n = s \/ In s (feedbackOf l)).
      cbn [feedbackOf recommendationsOf flat_map app In].
      fold prepareAdvice. fold rehearseAdvice.
      repeat split; intros; settle.
    + apply Qltb_ge in E.
      cbn [feedbackOf recommendationsOf flat_map app In].
      repeat split; intros; settle.
  - assert (n = 0) by lia.
    cbn [feedbackOf recommendationsOf flat_map app In]. fold pauseNone.
    repeat split; intros; settle.
Qed.

(** X9.  The feedback of [generateFeedback] calls the articulation clear
    exactly when the mean confidence is strictly above 0.8, generally clear
    exactly when it is above 0.6 and at most 0.8, and in need of work
    exactly when it is 0.6 or less; the second case recommends speaking
    more clearly and the third articulation exercises, in these cases
    only. *)
Theorem confidence_verdict (nts : Q -> string) (m : Metrics.t) :
  let c := Metrics.avgConfidence m in
  let fb := fst (generateFeedback nts m) in
  let rc := snd (generateFeedback nts m) in
  (In articulationClear fb <-> (0.8 < c)%Q)
  /\ (In articulationFair fb <-> (0.6 < c <= 0.8)%Q)
  /\ (In articulationPoor fb <-> (c <= 0.6)%Q)
  /\ (In speakClearlyAdvice rc <-> (0.6 < c <= 0.8)%Q)
  /\ (In exercisesAdvice rc <-> (c <= 0.6)%Q).
Proof.
  intros c fb rc. unfold fb, rc.
  rewrite (confidence_feedback_source nts m articulationClear) by (simpl; tauto).
  rewrite (confidence_feedback_source nts m articulationFair) by (simpl; tauto).
  rewrite (confidence_feedback_source nts m articulationPoor) by (simpl; tauto).
  rewrite (confidence_advice_source nts m speakClearlyAdvice) by (simpl; tauto).
  rewrite (confidence_advice_source nts m exercisesAdvice) by (simpl; tauto).
  assert (D1 : articulationClear <> articulationFair) by discriminate.
  assert (D2 : articulationClear <> articulationPoor) by discriminate.
  assert (D3 : articulationFair <> articulationPoor) by discriminate.
  assert (D4 : speakClearlyAdvice <> exercisesAdvice) by discriminate.
  unfold confidenceRule. fold c.
  destruct (JS.Qltb 0.8 c) eqn:E1.
  - apply Qltb_lt in E1.
    cbn [feedbackOf recommendationsOf flat_map app In]. fold articulationClear.
    repeat split; intros; settle.
  - apply Qltb_ge in E1. destruct (JS.Qltb 0.6 c) eqn:E2.
    + apply Qltb_lt in E2.
      cbn [feedbackOf recommendationsOf flat_map app In].
      fold articulationFair. fold speakClearlyAdvice.
      repeat split; intros; settle.
    + apply Qltb_ge in E2.
      cbn [feedbackOf recommendationsOf flat_map app In].
      fold articulationPoor. fold exercisesAdvice.
      repeat split; intros; settle.
Qed.

(** ** The reported rate and the feedback on it *)

Lemma Math_round_ge (x : Q) (z : Z) :
  (inject_Z z <= x)%Q -> (z <= JS.Math_round x)%Z.
Proof.
  intros H. unfold JS.Math_round.
  rewrite <- (Qfloor_Z z) at 1. apply Qfloor_resp_le. lra.
Qed.

Lemma Math_round_near (x : Q) :
  (x - 0.5 < inject_Z (JS.Math_round x) <= x + 0.5)%Q.
Proof.
  unfold JS.Math_round. split.
  - pose proof (Qlt_floor (x + 0.5)) as H.
    rewrite inject_Z_plus in H. change (inject_Z 1) with 1%Q in H. lra.
  - apply Qfloor_le.
Qed.

Lemma tenth (z : Z) : (inject_Z z / 10 == inject_Z z * (1 # 10))%Q.
Proof. reflexivity. Qed.

(** X4.  The first feedback message is chosen on the filler rate before
    rounding: the praise exactly when that rate is below 2, the caution
    exactly when it is at least 2 and below 5, the warning exactly when it
    is 5 or more.  The reported [fillerRate] is that rate rounded to one
    decimal, at most 0.05 away from it, and on the same side of 2 and of
    5 or on them: a reported 2.0 can come with the praise, a reported
    value below 2 never with the caution. *)
Theorem fillerRate_and_feedback (nts : Q -> string) (t : Transcript) :
  let a := analyzeTranscript nts t in
  let raw := rawFillerRate t in
  let first := hd "" (feedback a) in
  (first = fillerPraise <-> (raw < 2)%Q)
  /\ (first = fillerCaution <-> (2 <= raw < 5)%Q)
  /\ (first = fillerWarning (nts raw) <-> (5 <= raw)%Q)
  /\ (raw - 0.05 <= fillerRate a <= raw + 0.05)%Q
  /\ ((raw < 2)%Q -> (fillerRate a <= 2)%Q)
  /\ ((2 <= raw)%Q -> (2 <= fillerRate a)%Q)
  /\ ((raw < 5)%Q -> (fillerRate a <= 5)%Q)
  /\ ((5 <= raw)%Q -> (5 <= fillerRate a)%Q)
  /\ (exists t',
        (fillerRate (analyzeTranscript nts t') == 2)%Q
        /\ hd "" (feedback (analyzeTranscript nts t')) = fillerPraise).
Proof.
  intros a raw first.
  assert (Hf : first = hd "" (feedbackOf (fillerRateRule nts (metricsOf t)))).
  { unfold first, a. rewrite (proj1 (feedback_of_metrics nts t)), feedback_rules.
    pose proof (fillerRateRule_sizes nts (metricsOf t)) as [H1 _].
    destruct (feedbackOf (fillerRateRule nts (metricsOf t))); [discriminate|].
    reflexivity. }
  assert (Hr : fillerRate a = (inject_Z (JS.Math_round (raw * 10)) / 10)%Q)
    by reflexivity.
  assert (D1 : fillerPraise <> fillerCaution) by discriminate.
  assert (D2 : fillerPraise <> fillerWarning (nts raw)) by discriminate.
  assert (D3 : fillerCaution <> fillerWarning (nts raw)) by discriminate.
  assert (Hcase : ((raw < 2)%Q /\ first = fillerPraise)
                  \/ ((2 <= raw < 5)%Q /\ first = fillerCaution)
                  \/ ((5 <= raw)%Q /\ first = fillerWarning (nts raw))).
  { rewrite Hf. unfold fillerRateRule.
    change (Metrics.fillerRate (metricsOf t)) with raw.
    destruct (JS.Qltb raw 2) eqn:E1.
    - left. apply Qltb_lt in E1. now split.
    - apply Qltb_ge in E1. destruct (JS.Qltb raw 5) eqn:E2.
      + right. left. apply Qltb_lt in E2. now repeat split.
      + right. right. apply Qltb_ge in E2. now split. }
  pose proof (Math_round_near (raw * 10)) as [Hlo Hhi].
  rewrite Hr, tenth.
  split; [|split; [|split; [|split; [|split; [|split; [|split; [|split]]]]]]];
    [| | | | | | | |exists almostTwoPerMinute; split; reflexivity].
  - destruct Hcase as [[H ->]|[[H ->]|[H ->]]]; split; intros; try congruence; lra.
  - destruct Hcase as [[H ->]|[[H ->]|[H ->]]]; split; intros; try congruence; lra.
  - destruct Hcase as [[H ->]|[[H ->]|[H ->]]]; split; intros; try congruence; lra.
  - lra.
  - intros H.
    assert (JS.Math_round (raw * 10) <= 20)%Z
      by (apply Math_round_le; unfold inject_Z; lra).
    assert (inject_Z (JS.Math_round (raw * 10)) <= inject_Z 20)%Q
      by now rewrite <- Zle_Qle.
    unfold inject_Z at 2 in H1. lra.
  - intros H.
    assert (20 <= JS.Math_round (raw * 10))%Z
      by (apply Math_round_ge; unfold inject_Z; lra).
    assert (inject_Z 20 <= inject_Z (JS.Math_round (raw * 10)))%Q
      by now rewrite <- Zle_Qle.
    unfold inject_Z at 1 in H1. lra.
  - intros H.
    assert (JS.Math_round (raw * 10) <= 50)%Z
      by (apply Math_round_le; unfold inject_Z; lra).
    assert (inject_Z (JS.Math_round (raw * 10)) <= inject_Z 50)%Q
      by now rewrite <- Zle_Qle.
    unfold inject_Z at 2 in H1. lra.
  - intros H.
    assert (50 <= JS.Math_round (raw * 10))%Z
      by (apply Math_round_ge; unfold inject_Z; lra).
    assert (inject_Z 50 <= inject_Z (JS.Math_round (raw * 10)))%Q
      by now rewrite <- Zle_Qle.
    unfold inject_Z at 1 in H1. lra.
Qed.

(** X5.  A transcript in which no word is tagged as disfluency has no
    filler at all in its analysis, whatever its duration and however often
    a filler word was actually said: [totalFillers] is 0, [fillerRate] is
    0, the list of fillers and the table of most used fillers are empty,
    and the first feedback message is the praise for very few fillers. *)
Theorem untagged_transcript (nts : Q -> string) (t : Transcript) :
  let a := analyzeTranscript nts t in
  (forall w, In w (orEmpty (words t)) -> isDisfluency w = false) ->
  totalFillers a = 0 /\ fillers a = [] /\ mostUsedFillers a = []
  /\ (fillerRate a == 0)%Q
  /\ hd "" (feedback a) = fillerPraise.
Proof.
  intros a H.
  assert (Hf : filter isDisfluency (orEmpty (words t)) = []).
  { now apply (filter_none isDisfluency). }
  unfold a, analyzeTranscript.
  cbn [totalFillers fillers mostUsedFillers fillerRate feedback].
  rewrite Hf. cbn [List.length].
  split; [reflexivity|]. split; [reflexivity|]. split; [reflexivity|]. split.
  - rewrite (Math_round_comp _ 0%Q); [reflexivity|]. rewrite rate_zero. lra.
  - unfold generateFeedback, fillerRateRule. cbn [fst Metrics.fillerRate].
    assert (E : JS.Qltb (ofNat 0 / totalDurationMinutes t) 2 = true).
    { apply Qltb_lt. rewrite rate_zero. reflexivity. }
    rewrite E. reflexivity.
Qed.

(** ** Repeated words, continued *)

Lemma repeatable_texts (ws : list Word) :
  map (fun w => JS.toLowerCase (text w)) (filter repeatable ws)
  = filter (fun k => (1 <? String.length k)%nat) (spokenTexts ws).
Proof.
  unfold spokenTexts. induction ws as [|w ws IH]; [reflexivity|].
  cbn [filter]. unfold repeatable at 1. destruct (isSpoken w); cbn [andb map filter].
  - destruct (1 <? String.length (JS.toLowerCase (text w)))%nat; cbn [map];
      now rewrite IH.
  - exact IH.
Qed.

(** X11.  [getRepeatedWords] reads nothing of the words but the list of
    the lower-cased texts of those not tagged as disfluency: two word
    lists with the same such texts have the same repeated words, whatever
    the letter case, the times, the confidences and the disfluency-tagged
    words between them; in particular removing the disfluency-tagged
    words changes nothing. *)
Theorem repeatedWords_reads_spoken_texts (ws ws' : list Word) :
  (spokenTexts ws = spokenTexts ws' -> getRepeatedWords ws = getRepeatedWords ws')
  /\ getRepeatedWords (filter isSpoken ws) = getRepeatedWords ws.
Proof.
  assert (H : forall l l', spokenTexts l = spokenTexts l' ->
                getRepeatedWords l = getRepeatedWords l').
  { intros l l' E. unfold getRepeatedWords.
    now rewrite !repeated_fold, !repeatable_texts, E. }
  split; [apply H|]. apply H. unfold spokenTexts. f_equal.
  induction ws as [|w ws IH]; [reflexivity|].
  cbn [filter]. destruct (isSpoken w) eqn:E; cbn [filter]; [|exact IH].
  now rewrite E, IH.
Qed.

(** ** Long pauses, continued *)






(** ** The entry point, continued *)

Lemma pollLoop_fails (srv : Service) (id : option string) (fuel k : nat)
    (log : list Event) (e : Exn) :
  fetch srv id k = inl e ->
  pollLoop (S fuel) srv id k log = (Throw e, (log ++ [Poll id])%list).
Proof.
  intros H. cbn [pollLoop]. unfold bind, await. now rewrite H.
Qed.

Lemma pollLoop_extends (fuel : nat) (srv : Service) (id : option string) :
  forall k log, exists more,
    snd (pollLoop fuel srv id k log) = (log ++ more)%list.
Proof.
  induction fuel as [|fuel IH]; intros k log.
  - exists []. simpl. now rewrite app_nil_r.
  - cbn [pollLoop]. unfold bind, await, emit, ret, throw.
    destruct (fetch srv id k) as [e|d].
    + now exists [Poll id].
    + destruct (String.eqb (status d) "completed"); [now exists [Poll id]|].
      destruct (String.eqb (status d) "error"); [now exists [Poll id]|].
      destruct (IH (S k) ((log ++ [Poll id]) ++ [Sleep 2000])%list) as [more Hm].
      exists ([Poll id; Sleep 2000] ++ more)%list.
      rewrite Hm. now rewrite <- !app_assoc.
Qed.

(** X13.  When the upload throws, [analyzeAudio] returns [null] having
    made no other call: no job is submitted and nothing is polled.  When
    the submission throws, it returns [null] without polling.  An upload
    that answers without an [upload_url] is not a failure for it: the job
    is submitted all the same, with no audio URL. *)
Theorem analyzeAudio_before_polling (nts : Q -> string) (fuel : nat)
    (srv : Service) (uri : string) :
  let outcome := analyzeAudio nts fuel srv uri [] in
  (forall e, upload srv uri = inl e ->
     outcome = (Ret None, [Upload uri; ConsoleError e]))
  /\ (forall audioUrl e,
        upload srv uri = inr audioUrl -> submit srv audioUrl = inl e ->
        outcome = (Ret None, [Upload uri; Submit audioUrl; ConsoleError e]))
  /\ (upload srv uri = inr None ->
      exists rest, snd outcome = Upload uri :: Submit None :: rest).
Proof.
  intros outcome. unfold outcome, analyzeAudio, tryCatch, analyzeAudioBody.
  split; [|split].
  - intros e H. unfold bind at 1, await. now rewrite H.
  - intros audioUrl e Hu Hs. unfold bind at 1 2, await. now rewrite Hu, Hs.
  - intros Hu. unfold bind at 1 2 3, await. rewrite Hu. cbn [app].
    destruct (submit srv None) as [e|id].
    + now exists [ConsoleError e].
    + cbn [app].
      destruct (pollLoop_extends fuel srv id 0 [Upload uri; Submit None])
        as [more Hm].
      destruct (pollLoop fuel srv id 0 [Upload uri; Submit None]) as [[d|e|] log];
        cbn [snd] in Hm; subst log; unfold ret, bind, emit; cbn.
      * now exists more.
      * exists (more ++ [ConsoleError e])%list. reflexivity.
      * now exists more.
Qed.

(** X14.  A poll that throws ends the loop at once with what it threw: the
    poll is not repeated and no later poll is made, however much fuel is
    left, and [analyzeAudio] returns [null] with that poll as its last
    call. *)
Theorem pollLoop_network_failure (nts : Q -> string) (srv : Service)
    (uri : string) (audioUrl id : option string) (n fuel : nat) (e : Exn) :
  stillRunning srv id 0 n -> fetch srv id n = inl e -> n < fuel ->
  pollLoop fuel srv id 0 [] = (Throw e, pollTrace id n)
  /\ (upload srv uri = inr audioUrl -> submit srv audioUrl = inr id ->
      analyzeAudio nts fuel srv uri []
      = (Ret None,
         [Upload uri; Submit audioUrl] ++ pollTrace id n ++ [ConsoleError e]))%list.
Proof.
  intros Hrun Hf Hfuel. split.
  - replace fuel with (n + S (fuel - S n)) by lia.
    rewrite (pollLoop_skip srv id n 0 [] _ Hrun).
    now rewrite (pollLoop_fails srv id _ _ _ e Hf).
  - intros Hu Hs. unfold analyzeAudio, tryCatch, analyzeAudioBody.
    unfold bind at 1 2 3, await. rewrite Hu, Hs. cbn [app].
    replace fuel with (n + S (fuel - S n)) by lia.
    rewrite (pollLoop_skip srv id n 0 _ _ Hrun).
    rewrite (pollLoop_fails srv id _ _ _ e Hf).
    unfold bind, emit, ret, pollTrace. cbn. now rewrite <- !app_assoc.
Qed.

(** X15.  The wait has no bound: when every poll answers with a status
    other than [completed] and [error], [analyzeAudio] is still polling
    after any number of turns, having polled once and slept once in each,
    and has returned neither a result nor [null]. *)
Theorem analyzeAudio_never_gives_up (nts : Q -> string) (srv : Service)
    (uri : string) (audioUrl id : option string) :
  upload srv uri = inr audioUrl -> submit srv audioUrl = inr id ->
  (forall n, stillRunning srv id 0 n) ->
  forall fuel,
    analyzeAudio nts fuel srv uri []
    = (Polling,
       [Upload uri; Submit audioUrl]
       ++ List.concat (repeat [Poll id; Sleep 2000] fuel))%list.
Proof.
  intros Hu Hs Hrun fuel. unfold analyzeAudio, tryCatch, analyzeAudioBody.
  unfold bind at 1 2 3, await. rewrite Hu, Hs. cbn [app].
  rewrite <- (Nat.add_0_r fuel) at 1.
  rewrite (pollLoop_skip srv id fuel 0 _ 0 (Hrun fuel)). reflexivity.
Qed.

(** ** The report of the record screen *)

Lemma tabulate_keys (f : string -> nat) (ks : list string) :
  map fst (tabulate f ks) = ks.
Proof. unfold tabulate. rewrite map_map. apply map_id. Qed.


Lemma entries_tabulate (f : string -> nat) :
  JS.Object_entries (tabulate f COMMON_FILLERS) = tabulate f COMMON_FILLERS.
Proof.
  apply entries_no_index. rewrite tabulate_keys. intros k Hk.
  unfold COMMON_FILLERS in Hk. simpl in Hk.
  repeat (destruct Hk as [<-|Hk]; [reflexivity|]). contradiction.
Qed.





Lemma positive_entries (f : string -> nat) (ks : list string) (e : string * nat) :
  In e (filter (fun e => (0 <? snd e)%nat) (tabulate f ks))
  <-> In (fst e) ks /\ 0 < f (fst e) /\ snd e = f (fst e).
Proof.
  rewrite filter_In. unfold tabulate. rewrite in_map_iff. split.
  - intros [(k & <- & Hk) Hp]. cbn [fst snd] in *.
    apply Nat.ltb_lt in Hp. auto.
  - intros (Hk & Hp & He). split.
    + exists (fst e). split; [|assumption]. destruct e; cbn [fst snd] in *. now subst.
    + rewrite He. now apply Nat.ltb_lt.
Qed.

(** X17.  The fillers that the record screen lists for an analysed
    recording are exactly the fillers of [COMMON_FILLERS] that some word
    has as its lower-cased text, each once and with the number of such
    words, from the most frequent to the least, equal counts in the order
    of [COMMON_FILLERS]; at most six of them. *)
Theorem report_mostUsedFillers (nts : Q -> string) (t : Transcript)
    (recording : Recording.t) :
  Recording.analysis recording = Some (buildResult nts t) ->
  let ws := orEmpty (words t) in
  let shown := Report.mostUsedFillers (getAnalysisData recording) in
  let used :=
    filter (fun e => (0 <? snd e)%nat) (tabulate (timesSaid ws) COMMON_FILLERS) in
  (forall e, In e shown
     <-> exists k, In k COMMON_FILLERS /\ 0 < timesSaid ws k
                   /\ e = numbered (k, timesSaid ws k))
  /\ NoDup (map word shown)
  /\ descending shown
  /\ (forall c, filter (hasCount c) shown = filter (hasCount c) (map numbered used))
  /\ List.length shown <= 6.
Proof.
  intros H ws shown used.
  assert (Hs : shown = JS.sort byCountDesc (map numbered used)).
  { unfold shown, getAnalysisData. rewrite H. cbn [Report.mostUsedFillers].
    change (commonFillerCounts (analysis (buildResult nts t)))
      with (countCommonFillers ws).
    now rewrite countCommonFillers_table, entries_tabulate. }
  pose proof (sort_perm byCountDesc (map numbered used)) as Hp. rewrite <- Hs in Hp.
  split; [|split; [|split; [|split]]].
  - intros e. split.
    + intros He. apply (Permutation_in _ Hp) in He.
      apply in_map_iff in He. destruct He as ([k n] & <- & Hkn).
      apply positive_entries in Hkn. cbn [fst snd] in Hkn.
      destruct Hkn as (Hk & Hpos & ->). now exists k.
    + intros (k & Hk & Hpos & ->).
      apply (Permutation_in _ (Permutation_sym Hp)).
      apply in_map. apply positive_entries. cbn [fst snd]. auto.
  - apply (Permutation_NoDup (Permutation_map word (Permutation_sym Hp))).
    rewrite map_map. cbn [numbered word].
    apply (NoDup_keys_filter (fun e => (0 <? snd e)%nat)).
    rewrite tabulate_keys. apply COMMON_FILLERS_NoDup.
  - rewrite Hs. apply sort_descending, numbered_all.
  - intros c. rewrite Hs. apply sort_ties, numbered_all.
  - rewrite (Permutation_length Hp), length_map.
    etransitivity; [apply filter_length_le|].
    unfold tabulate. now rewrite length_map.
Qed.

Lemma report_mostUsedFillers_witness :
  NoDup (map word (Report.mostUsedFillers (getAnalysisData analysedRecording))).
Proof.
  exact (proj1 (proj2 (report_mostUsedFillers sampleRendering almostTwoPerMinute
                         analysedRecording eq_refl))).
Defined.






(** X19.  Every pronunciation issue of an analysis has a confidence, and
    its bar in the report is red: the colour scale is read at a hundred
    times a confidence that is below 0.6. *)
Theorem pronunciation_bars_are_red (nts : Q -> string) (t : Transcript)
    (issue : Issue) :
  In issue (pronunciationIssues (analyzeTranscript nts t)) ->
  exists c, issue_confidence issue = Some c
            /\ issueBarColor c = "#F44336".
Proof.
  unfold analyzeTranscript. cbn [pronunciationIssues]. intros H.
  apply in_map_iff in H. destruct H as (w & <- & Hw).
  apply filter_In in Hw. destruct Hw as [_ Hw].
  apply andb_true_iff in Hw. destruct Hw as [Hc _].
  apply Qltb_lt in Hc. cbn [issue_confidence].
  destruct (confidence w) as [c|]; cbn [JS.nullish] in Hc.
  - exists c. split; [reflexivity|].
    unfold issueBarColor, getScoreColor.
    assert (H80 : Qle_bool 80 (c * 100) = false) by (apply Qle_bool_false; lra).
    assert (H60 : Qle_bool 60 (c * 100) = false) by (apply Qle_bool_false; lra).
    now rewrite H80, H60.
  - exfalso. lra.
Qed.

Lemma pronunciation_bars_are_red_witness :
  exists c, Some 0.5%Q = Some c /\ issueBarColor c = "#F44336".
Proof.
  apply (pronunciation_bars_are_red sampleRendering mumbled
           {| issue_word := "statistics"; issue_confidence := Some 0.5%Q |}).
  vm_compute. left. reflexivity.
Defined.

(** ** The list of recordings *)

Lemma filterIndex_all {A} (keep : nat -> bool) (i : nat) (l : list A) :
  (forall j, i <= j -> keep j = true) -> filterIndex keep i l = l.
Proof.
  revert i. induction l as [|x l IH]; intros i H; [reflexivity|].
  cbn [filterIndex]. rewrite (H i (Nat.le_refl i)). f_equal.
  apply IH. intros j Hj. apply H. lia.
Qed.

Lemma filterIndex_delete {A} (index i : nat) (l : list A) :
  i <= index ->
  filterIndex (fun j => negb (j =? index)%nat) i l
  = (firstn (index - i) l ++ skipn (S (index - i)) l)%list.
Proof.
  revert i. induction l as [|x l IH]; intros i Hi.
  - now rewrite firstn_nil, skipn_nil.
  - cbn [filterIndex]. destruct (Nat.eqb_spec i index) as [->|Hne]; cbn [negb].
    + rewrite Nat.sub_diag. cbn [firstn skipn app].
      apply filterIndex_all. intros j Hj.
      destruct (Nat.eqb_spec j index); [lia|reflexivity].
    + replace (index - i) with (S (index - S i)) by lia.
      cbn [firstn skipn app]. f_equal. apply IH. lia.
Qed.

Lemma handleDelete_split {A} (index : nat) (prev : list A) :
  handleDelete index prev = (firstn index prev ++ skipn (S index) prev)%list.
Proof.
  unfold handleDelete. rewrite (filterIndex_delete index 0 prev (Nat.le_0_l _)).
  now rewrite Nat.sub_0_r.
Qed.

(** X20.  Deleting at an index removes the recording at that index and no
    other: the recordings before it keep their places, those after it
    move up by one, and an index past the end leaves the list as it is. *)
Theorem handleDelete_removes_one {A} (index : nat) (prev : list A) :
  handleDelete index prev = (firstn index prev ++ skipn (S index) prev)%list
  /\ (forall j, nth_error (handleDelete index prev) j
                = if (j <? index)%nat then nth_error prev j
                  else nth_error prev (S j))
  /\ (index < List.length prev ->
      S (List.length (handleDelete index prev)) = List.length prev)
  /\ (List.length prev <= index -> handleDelete index prev = prev).
Proof.
  rewrite handleDelete_split. split; [reflexivity|]. split; [|split].
  - intros j. destruct (Nat.ltb_spec j index) as [Hlt|Hge].
    + destruct (Nat.le_gt_cases (List.length prev) j) as [Hout|Hin].
      * rewrite (proj2 (nth_error_None prev j) Hout).
        apply nth_error_None. rewrite length_app, length_firstn, length_skipn. lia.
      * rewrite nth_error_app1 by (rewrite length_firstn; lia).
        rewrite nth_error_firstn.
        now rewrite (proj2 (Nat.ltb_lt j index) Hlt).
    + destruct (Nat.le_gt_cases (List.length prev) index) as [Hout|Hin].
      * rewrite firstn_all2, skipn_all2, app_nil_r by lia.
        rewrite (proj2 (nth_error_None prev j)) by lia.
        symmetry. apply nth_error_None. lia.
      * rewrite nth_error_app2 by (rewrite length_firstn; lia).
        rewrite length_firstn, Nat.min_l by lia.
        rewrite nth_error_skipn. f_equal. lia.
  - intros H. rewrite length_app, length_firstn, length_skipn. lia.
  - intros H. now rewrite firstn_all2, skipn_all2, app_nil_r by lia.
Qed.

Lemma handleDelete_older {A} (index : nat) (prev : list A) (x : A) :
  index < List.length prev ->
  handleDelete index (prev ++ [x]) = (handleDelete index prev ++ [x])%list.
Proof.
  intros H. rewrite !handleDelete_split.
  rewrite firstn_app, skipn_app.
  replace (index - List.length prev) with 0 by lia.
  replace (S index - List.length prev) with 0 by lia.
  cbn [firstn skipn]. now rewrite app_nil_r, app_assoc.
Qed.

Lemma handleDelete_newest {A} (prev : list A) (x : A) :
  handleDelete (List.length prev) (prev ++ [x]) = prev.
Proof.
  rewrite handleDelete_split, firstn_app, skipn_app.
  rewrite Nat.sub_diag, firstn_all. cbn [firstn].
  rewrite skipn_all2 by lia.
  replace (S (List.length prev) - List.length prev) with 1 by lia.
  cbn [skipn]. now rewrite !app_nil_r.
Qed.

(** X21.  The result of the analysis is written over the last recording of
    the list as it is when the analysis ends, whichever recording that is.
    When nothing was deleted in the meantime, or a recording older than
    the new one was, the new recording gets its analysis.  When the new
    recording was deleted in the meantime, it comes back with its
    analysis, in the place of the last of the older recordings.  When
    [analyzeAudio] returned [null] the list is left as it is, the new
    recording staying without an analysis. *)
Theorem analysis_lands_on_last (prev current : list Recording.t)
    (newRecording : Recording.t) (result : AnalysisResult) (index : nat) :
  let analysed := withAnalysis newRecording result in
  attachAnalysis current newRecording (Some result)
  = (removelast current ++ [analysed])%list
  /\ attachAnalysis (addRecording prev newRecording) newRecording (Some result)
     = (prev ++ [analysed])%list
  /\ (index < List.length prev ->
      attachAnalysis (handleDelete index (addRecording prev newRecording))
                     newRecording (Some result)
      = (handleDelete index prev ++ [analysed])%list)
  /\ attachAnalysis (handleDelete (List.length prev) (addRecording prev newRecording))
                    newRecording (Some result)
     = (removelast prev ++ [analysed])%list
  /\ attachAnalysis (addRecording prev newRecording) newRecording None
     = (prev ++ [newRecording])%list.
Proof.
  intros analysed. unfold attachAnalysis, addRecording.
  split; [reflexivity|]. split; [|split; [|split]].
  - now rewrite removelast_last.
  - intros H. now rewrite handleDelete_older, removelast_last.
  - now rewrite handleDelete_newest.
  - reflexivity.
Qed.

(** ** Scores and their colours *)




(** ** The interview screen *)






Lemma skipn_nth {A} (l : list A) (i : nat) (x : A) :
  nth_error l i = Some x -> skipn i l = x :: skipn (S i) l.
Proof.
  revert i. induction l as [|y l IH]; intros [|i] H; try discriminate.
  - now injection H as ->.
  - cbn [skipn]. now apply IH.
Qed.

Lemma stopRecording_usable (content : Question.t -> string -> Content.t)
    (take : Take.t) (st : Screen.t) (s : Session.t) (q : Question.t) :
  Screen.currentSession st = Some s -> usable take ->
  nth_error (Session.questions s) (Screen.currentQuestionIndex st) = Some q ->
  exists r,
    responseTo content (q, take) = Some r
    /\ stopRecording content take st
       = {| Screen.currentSession := Some (withResponse s r);
            Screen.pastSessions := Screen.pastSessions st;
            Screen.currentQuestionIndex := Screen.currentQuestionIndex st;
            Screen.showSetup := Screen.showSetup st;
            Screen.showQuestionModal := false;
            Screen.showResultsModal := true;
            Screen.selectedResponse := Some r |}.
Proof.
  intros Hs [(uri & Hu & Hne) Hsp] Hq.
  destruct (Take.speech take) as [sp|] eqn:E; [|congruence].
  exists (newResponse content q uri take sp). split.
  - unfold responseTo. cbn [fst snd]. now rewrite Hu, E.
  - unfold stopRecording. rewrite Hs, Hu, E, Hq.
    destruct (String.eqb_spec uri EmptyString); [contradiction|reflexivity].
Qed.

Lemma interview_run (content : Question.t -> string -> Content.t) (now : string)
    (takes : list Take.t) :
  forall (st : Screen.t) (s : Session.t),
    Screen.currentSession st = Some s ->
    takes <> [] ->
    Screen.currentQuestionIndex st + List.length takes
    = List.length (Session.questions s) ->
    Forall usable takes ->
    exists final added,
      interview content now takes st = Some final
      /\ Screen.currentSession final = None
      /\ Screen.pastSessions final
         = completedSession now
             {| Session.id := Session.id s;
                Session.domain := Session.domain s;
                Session.experienceLevel := Session.experienceLevel s;
                Session.questions := Session.questions s;
                Session.responses := (Session.responses s ++ added)%list;
                Session.createdAt := Session.createdAt s;
                Session.completedAt := Session.completedAt s;
                Session.overallScore := Session.overallScore s |}
           :: Screen.pastSessions st
      /\ map Some added
         = map (responseTo content)
               (combine (skipn (Screen.currentQuestionIndex st) (Session.questions s))
                        takes)
      /\ Screen.currentQuestionIndex final = 0
      /\ Screen.showSetup final = true.
Proof.
  induction takes as [|take later IH]; intros st s Hs Hne Hlen Hus; [congruence|].
  inversion Hus as [|? ? Hu Hus']; subst.
  cbn [List.length] in Hlen.
  destruct (nth_error (Session.questions s) (Screen.currentQuestionIndex st))
    as [q|] eqn:Hq.
  2:{ apply nth_error_None in Hq. lia. }
  destruct (stopRecording_usable content take st s q Hs Hu Hq) as (r & Hr & Hst).
  cbn [interview]. rewrite Hst. unfold moveToNextQuestion.
  cbn [Screen.currentSession Screen.currentQuestionIndex withResponse
       Session.questions].
  rewrite (skipn_nth _ _ _ Hq). cbn [combine map]. rewrite Hr.
  destruct later as [|take' later'].
  - assert (Hlast : (Screen.currentQuestionIndex st + 1
                     <? List.length (Session.questions s))%nat = false)
      by (apply Nat.ltb_ge; cbn [List.length] in Hlen; lia).
    rewrite Hlast, combine_nil. cbn [interview map].
    eexists. exists [r]. split; [reflexivity|].
    unfold completeSession. cbn. repeat split.
  - assert (Hmore : (Screen.currentQuestionIndex st + 1
                     <? List.length (Session.questions s))%nat = true)
      by (apply Nat.ltb_lt; cbn [List.length] in Hlen; lia).
    rewrite Hmore.
    match goal with
    | |- context [interview content now _ ?st2] =>
        destruct (IH st2 (withResponse s r)) as (final & added & Hi & Hc & Hp & Ha & Hx & Hsu)
    end.
    + reflexivity.
    + discriminate.
    + cbn [Screen.currentQuestionIndex withResponse Session.questions].
      cbn [List.length] in *. lia.
    + assumption.
    + exists final, (r :: added). split; [exact Hi|]. split; [exact Hc|].
      cbn [Screen.pastSessions Screen.currentQuestionIndex withResponse
           Session.id Session.domain Session.experienceLevel Session.questions
           Session.responses Session.createdAt Session.completedAt
           Session.overallScore] in Hp, Ha.
      split; [|split; [|split]]; try assumption.
      * rewrite Hp. now rewrite <- app_assoc.
      * cbn [map]. rewrite Ha. now rewrite Nat.add_1_r.
Qed.

Lemma responses_follow (content : Question.t -> string -> Content.t)
    (questions : list Question.t) (takes : list Take.t) (added : list Response.t) :
  List.length takes = List.length questions ->
  map Some added = map (responseTo content) (combine questions takes) ->
  map Response.questionId added = map Question.id questions
  /\ map Response.question added = map Question.question questions
  /\ map Response.recordedAt added = map Take.recordedAt takes.
Proof.
  revert takes added.
  induction questions as [|q qs IH]; intros [|take takes] [|r added] Hlen H;
    try discriminate; cbn [combine map] in *.
  - repeat split.
  - injection H as Hr H. injection Hlen as Hlen.
    destruct (IH takes added Hlen H) as (H1 & H2 & H3).
    unfold responseTo in Hr. cbn [fst snd] in Hr.
    destruct (Take.uri take); [|discriminate].
    destruct (Take.speech take); [|discriminate].
    injection Hr as ->. cbn [newResponse Response.questionId Response.question
                              Response.recordedAt].
    now rewrite H1, H2, H3.
Qed.

(** X24.  An interview runs to its end.  From a session started with at
    least one question, one accepted recording per question, each followed
    by the button for the next question, leaves no current session and one
    more past session at the head of the list: it holds one response per
    question, in the order of the questions and each with the id and the
    text of its question, its completion time, and as its overall score
    the score computed from these responses; the question index is back at
    zero and the setup is shown. *)
Theorem interview_completes (content : Question.t -> string -> Content.t)
    (now domain selectedExperience id createdAt : string)
    (questions : list Question.t) (takes : list Take.t) (st : Screen.t) :
  domain <> EmptyString -> selectedExperience <> EmptyString ->
  questions <> [] ->
  List.length takes = List.length questions ->
  Forall usable takes ->
  exists final done,
    interview content now takes
      (startNewSession domain selectedExperience questions id createdAt st)
    = Some final
    /\ Screen.currentSession final = None
    /\ Screen.pastSessions final = done :: Screen.pastSessions st
    /\ Session.questions done = questions
    /\ map Response.questionId (Session.responses done) = map Question.id questions
    /\ map Response.question (Session.responses done)
       = map Question.question questions
    /\ map Response.recordedAt (Session.responses done) = map Take.recordedAt takes
    /\ Session.completedAt done = Some now
    /\ Session.overallScore done = Some (sessionScore (Session.responses done))
    /\ Screen.currentQuestionIndex final = 0
    /\ Screen.showSetup final = true.
Proof.
  intros Hd He Hq Hlen Hus.
  unfold startNewSession.
  destruct (String.eqb_spec domain EmptyString) as [|_]; [contradiction|].
  destruct (String.eqb_spec selectedExperience EmptyString) as [|_]; [contradiction|].
  cbn [orb].
  match goal with
  | |- context [interview content now takes ?st0] =>
      match st0 with
      | context [Some ?s0] =>
          destruct (interview_run content now takes st0 s0)
            as (final & added & Hi & Hc & Hp & Ha & Hx & Hsu)
      end
  end.
  - reflexivity.
  - destruct takes; [|discriminate]. destruct questions; [congruence|discriminate].
  - cbn [Screen.currentQuestionIndex Session.questions]. lia.
  - assumption.
  - cbn [Screen.pastSessions Screen.currentQuestionIndex Session.id Session.domain
         Session.experienceLevel Session.questions Session.responses
         Session.createdAt Session.completedAt Session.overallScore skipn app]
      in Hp, Ha.
    destruct (responses_follow content questions takes added Hlen Ha)
      as (H1 & H2 & H3).
    eexists final, _. split; [exact Hi|]. split; [exact Hc|].
    split; [exact Hp|].
    cbn [completedSession Session.questions Session.responses Session.completedAt
         Session.overallScore].
    repeat split; assumption.
Qed.

(** ** The findings that are reported only when there are some *)

Lemma common_advice_source (nts : Q -> string) (m : Metrics.t) (s : string) :
  In s [commonAdvice] ->
  (In s (snd (generateFeedback nts m))
   <-> In s (recommendationsOf (commonFillersRule m))).
Proof. intros Hs. single_source Hs s nts m. Qed.

Lemma pronunciation_advice_source (nts : Q -> string) (m : Metrics.t) (s : string) :
  In s [articulationAdvice; compareAdvice] ->
  (In s (snd (generateFeedback nts m))
   <-> In s (recommendationsOf (pronunciationRule m))).
Proof. intros Hs. single_source Hs s nts m. Qed.

Lemma nonempty_exists {A} (l : list A) :
  (0 <? List.length l)%nat = true <-> exists x, In x l.
Proof.
  destruct l as [|x l]; cbn.
  - split; [discriminate|intros [x []]].
  - split; [intros _; exists x; now left|reflexivity].
Qed.

Lemma common_advice_given (m : Metrics.t) (ws : list Word) :
  Metrics.commonFillerCounts m = Some (countCommonFillers ws) ->
  (In commonAdvice (recommendationsOf (commonFillersRule m))
   <-> exists w, In w ws /\ inVocabulary w = true).
Proof.
  intros Hm. unfold commonFillersRule. rewrite Hm.
  rewrite countCommonFillers_table, entries_tabulate.
  destruct (0 <? List.length
                   (filter (fun e => (0 <? snd e)%nat)
                           (tabulate (timesSaid ws) COMMON_FILLERS)))%nat eqn:E.
  - apply nonempty_exists in E. destruct E as ([k n] & He).
    apply positive_entries in He. cbn [fst snd] in He. destruct He as (Hk & Hp & _).
    split; [intros _|intros _; cbn; now left].
    unfold timesSaid in Hp.
    apply (count_occ_In string_dec) in Hp. apply in_map_iff in Hp.
    destruct Hp as (w & <- & Hw). exists w. split; [assumption|].
    now apply includes_In.
  - split; [intros []|]. intros (w & Hw & Hv). exfalso.
    assert (Hex : exists x, In x (filter (fun e => (0 <? snd e)%nat)
                                         (tabulate (timesSaid ws) COMMON_FILLERS))).
    { exists (JS.toLowerCase (text w), timesSaid ws (JS.toLowerCase (text w))).
      apply positive_entries. cbn [fst snd]. split; [now apply includes_In|].
      split; [|reflexivity]. unfold timesSaid.
      apply (count_occ_In string_dec). apply in_map_iff. now exists w. }
    apply nonempty_exists in Hex. congruence.
Qed.

(** X25.  The recommendation to pause instead of using common filler words
    is made exactly when some word of the transcript, tagged or not, has
    one of [COMMON_FILLERS] as its lower-cased text.  The two
    recommendations on pronunciation are made, both or neither, exactly
    when some word that is not tagged as disfluency has a confidence
    below 0.6. *)
Theorem optional_advice (nts : Q -> string) (t : Transcript) :
  let ws := orEmpty (words t) in
  let advice := recommendations (analyzeTranscript nts t) in
  (In commonAdvice advice <-> exists w, In w ws /\ inVocabulary w = true)
  /\ (In articulationAdvice advice <-> exists w, In w ws /\ flagged w = true)
  /\ (In compareAdvice advice <-> In articulationAdvice advice).
Proof.
  intros ws advice. unfold advice.
  rewrite (proj2 (feedback_of_metrics nts t)).
  rewrite (common_advice_source nts _ commonAdvice) by (simpl; tauto).
  rewrite (pronunciation_advice_source nts _ articulationAdvice) by (simpl; tauto).
  rewrite (pronunciation_advice_source nts _ compareAdvice) by (simpl; tauto).
  split; [|split].
  - now apply common_advice_given.
  - unfold pronunciationRule, metricsOf. cbn [Metrics.pronunciationIssues].
    fold ws. rewrite length_map.
    destruct (0 <? List.length (filter flagged ws))%nat eqn:E.
    + apply nonempty_exists in E. destruct E as (w & Hw).
      apply filter_In in Hw. split; [intros _; now exists w|intros _; cbn; now left].
    + split; [intros []|]. intros (w & Hw & Hf). exfalso.
      assert (Hex : exists x, In x (filter flagged ws))
        by (exists w; apply filter_In; now split).
      apply nonempty_exists in Hex. congruence.
  - unfold pronunciationRule, metricsOf. cbn [Metrics.pronunciationIssues].
    destruct (0 <? _)%nat; cbn; [|tauto].
    split; intros _; [now left|right; now left].
Qed.

(** ** The two versions of the entry point *)


(** ** More instances *)

(** Fillers um, uh, um: two entries whose counts add up to three. *)
Lemma mostUsedFillers_counts_witness :
  List.length (mostUsedFillers (analyzeTranscript sampleRendering twoFillers)) = 2
  /\ sumCounts (mostUsedFillers (analyzeTranscript sampleRendering twoFillers)) = 3.
Proof.
  destruct (mostUsedFillers_counts sampleRendering twoFillers) as (Hl & _ & _ & Hs).
  - intros k Hk. simpl in Hk. destruct Hk as [<-|[<-|[<-|[]]]]; reflexivity.
  - split; [exact Hl|]. apply Hs. simpl. lia.
Defined.

(** Two fillers in sixty-one seconds: a rate just below 2. *)
Lemma fillerRate_and_feedback_witness :
  hd "" (feedback (analyzeTranscript sampleRendering almostTwoPerMinute)) = fillerPraise
  /\ (fillerRate (analyzeTranscript sampleRendering almostTwoPerMinute) <= 2)%Q.
Proof.
  split.
  - apply (proj1 (fillerRate_and_feedback sampleRendering almostTwoPerMinute)).
    reflexivity.
  - apply (proj1 (proj2 (proj2 (proj2 (proj2
             (fillerRate_and_feedback sampleRendering almostTwoPerMinute)))))).
    reflexivity.
Defined.

(** The word so, said and not tagged. *)
Lemma untagged_transcript_witness :
  totalFillers (analyzeTranscript sampleRendering longSilence) = 0
  /\ hd "" (feedback (analyzeTranscript sampleRendering longSilence)) = fillerPraise.
Proof.
  destruct (untagged_transcript sampleRendering longSilence) as (H0 & _ & _ & _ & Hf).
  - intros w Hw. simpl in Hw. destruct Hw as [<-|[<-|[]]]; reflexivity.
  - split; [exact H0|exact Hf].
Defined.

(** I, I, the, the, cat. *)
Lemma repeatedWords_of_plain_words_witness :
  In {| word := "the"; count := JS.Num 2 |} (getRepeatedWords fiveWords).
Proof.
  apply (proj1 (repeatedWords_of_plain_words fiveWords
                  ltac:(intros k Hk; simpl in Hk;
                        destruct Hk as [<-|[<-|[<-|[<-|[<-|[]]]]]]; reflexivity))).
  split; [simpl; lia|split; [reflexivity|lia]].
Defined.

Lemma repeatedWords_reads_spoken_texts_witness :
  getRepeatedWords fiveWords = getRepeatedWords fiveWordsAgain.
Proof.
  apply (proj1 (repeatedWords_reads_spoken_texts fiveWords fiveWordsAgain)).
  reflexivity.
Defined.



(** An upload that fails. *)
Lemma analyzeAudio_before_polling_witness :
  analyzeAudio sampleRendering 10 offlineService "file:///answer.m4a" []
  = (Ret None,
     [Upload "file:///answer.m4a"; ConsoleError (JsError "Network request failed")]).
Proof.
  apply (proj1 (analyzeAudio_before_polling sampleRendering 10 offlineService
                  "file:///answer.m4a")).
  reflexivity.
Defined.

(** A connection lost at the second poll. *)
Lemma pollLoop_network_failure_witness :
  pollLoop 10 droppingService (Some "job-5") 0 []
  = (Throw (JsError "Network request failed"),
     [Poll (Some "job-5"); Sleep 2000; Poll (Some "job-5")]).
Proof.
  apply (proj1 (pollLoop_network_failure sampleRendering droppingService
                  "file:///answer.m4a" (Some "https://cdn.example/upload/5")
                  (Some "job-5") 1 10 (JsError "Network request failed")
                  ltac:(intros i Hi; destruct i as [|i];
                        [exists (answering "processing"); split; reflexivity|lia])
                  eq_refl ltac:(lia))).
Defined.

(** A job that stays queued, after three turns. *)
Lemma analyzeAudio_never_gives_up_witness :
  analyzeAudio sampleRendering 3 stuckService "file:///answer.m4a" []
  = (Polling,
     [Upload "file:///answer.m4a"; Submit (Some "https://cdn.example/upload/3");
      Poll (Some "job-3"); Sleep 2000; Poll (Some "job-3"); Sleep 2000;
      Poll (Some "job-3"); Sleep 2000]).
Proof.
  apply (analyzeAudio_never_gives_up sampleRendering stuckService
           "file:///answer.m4a" (Some "https://cdn.example/upload/3")
           (Some "job-3") eq_refl eq_refl
           ltac:(intros n i Hi; exists (answering "queued"); split; reflexivity)
           3).
Defined.

(** The second of three recordings deleted. *)
Lemma handleDelete_removes_one_witness :
  S (List.length (handleDelete 1 [freshRecording; analysedRecording; freshRecording]))
  = 3.
Proof.
  apply (proj1 (proj2 (proj2
           (handleDelete_removes_one 1
              [freshRecording; analysedRecording; freshRecording])))).
  simpl. lia.
Defined.

(** The older of two recordings deleted while the newer is analysed. *)
Lemma analysis_lands_on_last_witness :
  attachAnalysis
    (handleDelete 0 (addRecording [analysedRecording] freshRecording))
    freshRecording (Some (buildResult sampleRendering mumbled))
  = [withAnalysis freshRecording (buildResult sampleRendering mumbled)].
Proof.
  apply (proj1 (proj2 (proj2
           (analysis_lands_on_last [analysedRecording] [] freshRecording
              (buildResult sampleRendering mumbled) 0)))).
  simpl. lia.
Defined.



(** An interview of one question. *)
Lemma interview_completes_witness :
  exists final,
    interview (fun _ _ => fallbackContent) "2025-01-01T10:01:00.000Z" [sampleTake]
      (startNewSession "Sales" "Entry Level (0-2 years)" [fallbackQuestion]
         "1735725600000" "2025-01-01T09:59:00.000Z" setupScreen)
    = Some final
    /\ Screen.currentSession final = None
    /\ List.length (Screen.pastSessions final) = 1.
Proof.
  destruct (interview_completes (fun _ _ => fallbackContent)
              "2025-01-01T10:01:00.000Z" "Sales" "Entry Level (0-2 years)"
              "1735725600000" "2025-01-01T09:59:00.000Z"
              [fallbackQuestion] [sampleTake] setupScreen)
    as (final & done & Hi & Hc & Hp & _).
  - discriminate.
  - discriminate.
  - discriminate.
  - reflexivity.
  - constructor; [|constructor]. split; [|discriminate].
    exists "file:///answer.m4a". split; [reflexivity|discriminate].
  - exists final. split; [exact Hi|]. split; [exact Hc|].
    rewrite Hp. reflexivity.
Defined.
